(** * PM resume tailoring agent: a shallow embedding of [pm_resume_agent.py]

    The development follows the Python module top to bottom:

    - [Py]: the handful of Python built-ins the module leans on ([str]
      methods, insertion-ordered [dict], [sorted], [max], slicing);
    - [Re]: the fragment of the [re] module used by requirement extraction;
    - the data classes [Experience], [Education], [UserProfile];
    - [JobDescriptionAnalyzer], [ResumeTailor];
    - the properties of keyword scoring, ranking and assembly.

    Conventions.  Text is a [string] of 8-bit characters (the UTF-8 bytes of
    the Python [str]); case mapping, case-insensitive matching and the
    character classes [\s], [\d] act on the ASCII range, every other byte is
    an opaque caseless character.  On ASCII text ([str.isascii]) this is what
    Python computes; off it Python also folds and strips characters the
    model leaves alone (U+212A lowers to [k], U+00A0 is white space), so the
    properties that depend on case mapping or on character classes are
    stated of ASCII text.  Python [float] is IEEE binary64, modelled by the
    kernel's primitive floats; [sorted] is modelled on keys other than NaN.  [Experience] instances live in an object store and are referred
    to by address, because ranking assigns to a field of the caller's
    objects. *)

From Stdlib Require Import ZArith Ascii String Floats Uint63 DecimalString.
From stdpp Require Import base option list sorting gmap strings.

Set Warnings "-inexact-float".

(* ===================================================================== *)
(** * Python built-ins *)
(* ===================================================================== *)

Module Py.

(** ** Exceptions and results *)

(** The exceptions the module can raise on the paths modelled here.
    [Unallocated] has no Python counterpart: a Python reference always
    denotes a live object, the store lookup is partial only in the model. *)
Inductive exn : Type :=
  | AttributeError
  | KeyError (key : string)
  | ValueError
  | Unallocated.

Inductive result (A : Type) : Type :=
  | Ok (a : A)
  | Raise (e : exn).
Arguments Ok {A} a.
Arguments Raise {A} e.

Definition rbind {A B} (r : result A) (k : A -> result B) : result B :=
  match r with
  | Ok a => k a
  | Raise e => Raise e
  end.

(** ** [str] *)

Definition is_upper (c : ascii) : bool :=
  let n := nat_of_ascii c in (65 <=? n)%nat && (n <=? 90)%nat.

Definition is_lower (c : ascii) : bool :=
  let n := nat_of_ascii c in (97 <=? n)%nat && (n <=? 122)%nat.

Definition is_digit (c : ascii) : bool :=
  let n := nat_of_ascii c in (48 <=? n)%nat && (n <=? 57)%nat.

(** [str.isspace] on the ASCII range: TAB, LF, VT, FF, CR, FS, GS, RS, US
    and the space.  (Python counts further characters outside ASCII as white
    space, U+00A0 among them.) *)
Definition is_space (c : ascii) : bool :=
  let n := nat_of_ascii c in
  ((9 <=? n)%nat && (n <=? 13)%nat) || ((28 <=? n)%nat && (n <=? 32)%nat).

Definition lower_char (c : ascii) : ascii :=
  if is_upper c then ascii_of_nat (nat_of_ascii c + 32) else c.

(** [s.isascii()]: every character is below U+0080, that is, every byte of
    the text is. *)
Fixpoint isascii (s : string) : bool :=
  match s with
  | EmptyString => true
  | String c s' => (nat_of_ascii c <? 128)%nat && isascii s'
  end.

(** [s.lower()] of an ASCII text: the letters [A] to [Z] are lowered, every
    other character is kept.  ([str.lower] also maps characters outside
    ASCII; the model keeps their bytes.) *)
Fixpoint lower (s : string) : string :=
  match s with
  | EmptyString => EmptyString
  | String c s' => String (lower_char c) (lower s')
  end.

(** [s.startswith(p)] *)
Fixpoint startswith (p s : string) : bool :=
  match p, s with
  | EmptyString, _ => true
  | String a p', String b s' => if Ascii.eqb a b then startswith p' s' else false
  | String _ _, EmptyString => false
  end.

(** [sub in s] *)
Fixpoint contains (sub s : string) : bool :=
  startswith sub s ||
  match s with
  | EmptyString => false
  | String _ s' => contains sub s'
  end.

(** [s.count(sub)]: occurrences found scanning left to right, the scan
    resuming just after each occurrence.  [skip] is the number of characters
    of the last occurrence still to be stepped over.  Positions are bytes,
    which are the characters of an ASCII text. *)
Fixpoint count_from (sub s : string) (skip : nat) : nat :=
  match s with
  | EmptyString =>
      match skip with
      | O => if startswith sub EmptyString then 1 else 0
      | S _ => 0
      end
  | String _ s' =>
      match skip with
      | S k => count_from sub s' k
      | O =>
          if startswith sub s
          then S (count_from sub s' (Nat.pred (String.length sub)))
          else count_from sub s' 0
      end
  end.

Definition count (s sub : string) : nat := count_from sub s 0.

(** [sep.join(items)] *)
Fixpoint join (sep : string) (items : list string) : string :=
  match items with
  | [] => EmptyString
  | [x] => x
  | x :: rest => x +:+ sep +:+ join sep rest
  end.

Fixpoint lstrip (s : string) : string :=
  match s with
  | EmptyString => EmptyString
  | String c s' => if is_space c then lstrip s' else s
  end.

Fixpoint rstrip (s : string) : string :=
  match s with
  | EmptyString => EmptyString
  | String c s' =>
      match rstrip s' with
      | EmptyString => if is_space c then EmptyString else String c EmptyString
      | r => String c r
      end
  end.

(** [s.strip()] *)
Definition strip (s : string) : string := rstrip (lstrip s).

(** [s.replace(old, new)] *)
Fixpoint replace_from (old new s : string) (skip : nat) : string :=
  match s with
  | EmptyString =>
      match skip with
      | O => if startswith old EmptyString then new else EmptyString
      | S _ => EmptyString
      end
  | String c s' =>
      match skip with
      | S k => replace_from old new s' k
      | O =>
          if startswith old s
          then new +:+
               match String.length old with
               | O => String c (replace_from old new s' 0)
               | S n => replace_from old new s' n
               end
          else String c (replace_from old new s' 0)
      end
  end.

Definition replace (s old new : string) : string := replace_from old new s 0.

(** [str(n)] for a non-negative [int] *)
Definition str_of_int (n : nat) : string :=
  NilEmpty.string_of_uint (Nat.to_uint n).

(** Truthiness of a [str]: non-empty. *)
Definition truthy (s : string) : bool :=
  match s with EmptyString => false | _ => true end.

(** ** [float] *)

(** Conversion of a non-negative [int] in an arithmetic expression with a
    [float].  Counts and lengths of Python sequences are below [2^63], the
    range on which [of_uint63] is the correctly rounded conversion. *)
Definition float_of_int (n : nat) : float :=
  PrimFloat.of_uint63 (Uint63.of_Z (Z.of_nat n)).

(** ** [dict]: insertion-ordered, keys unique *)

Definition dict (V : Type) : Type := list (string * V).

Fixpoint dict_get {V} (d : dict V) (k : string) : option V :=
  match d with
  | [] => None
  | (k', v) :: d' => if String.eqb k' k then Some v else dict_get d' k
  end.

(** [k in d] *)
Definition dict_mem {V} (d : dict V) (k : string) : bool :=
  match dict_get d k with Some _ => true | None => false end.

(** [d[k] = v]: an existing key keeps its position, a new one goes last. *)
Fixpoint dict_set {V} (d : dict V) (k : string) (v : V) : dict V :=
  match d with
  | [] => [(k, v)]
  | (k', v') :: d' =>
      if String.eqb k' k then (k', v) :: d' else (k', v') :: dict_set d' k v
  end.

(** [d[k]] *)
Definition dict_item {V} (d : dict V) (k : string) : result V :=
  match dict_get d k with
  | Some v => Ok v
  | None => Raise (KeyError k)
  end.

Definition keys {V} (d : dict V) : list string := d.*1.
Definition values {V} (d : dict V) : list V := d.*2.

(** ** [sorted(xs, key=..., reverse=True)]

    CPython sorts with [<] only and keeps equal keys in their original order
    also under [reverse=True].  On keys that [<] orders totally up to ties
    (integers, floats other than NaN) the outcome is the one list that is
    descending and stable, which insertion from the right computes.  With a
    NaN among the keys [<] is no order, the outcome of CPython's sort then
    depends on its merge strategy and is not what this definition gives:
    the properties of sorting by a float are stated of keys without NaN. *)
Section Sorted.
Context {A K : Type} (lt : K -> K -> bool) (key : A -> K).

Fixpoint insert_desc (x : A) (l : list A) : list A :=
  match l with
  | [] => [x]
  | y :: l' => if lt (key x) (key y) then y :: insert_desc x l' else x :: l
  end.

Fixpoint sorted_reverse (l : list A) : list A :=
  match l with
  | [] => []
  | x :: l' => insert_desc x (sorted_reverse l')
  end.

(** [max(xs, key=...)]: the first maximal item; [ValueError] on an empty
    sequence. *)
Definition max_by (l : list A) : result A :=
  match l with
  | [] => Raise ValueError
  | x :: l' =>
      Ok (fold_left (fun best y => if lt (key best) (key y) then y else best) l' x)
  end.
End Sorted.

(** [any(p(x) for x in xs)] *)
Definition any {A} (p : A -> bool) (xs : list A) : bool := existsb p xs.

End Py.

Import Py.

(* ===================================================================== *)
(** * The fragment of [re] used by requirement extraction *)
(* ===================================================================== *)

Module Re.

(** Patterns.  Repetition is only ever applied to a single character class
    in the module's patterns, so the repetition operators take a class.
    A character is a byte: on ASCII text [.], the bound of [.{0,20}] and the
    classes mean what they mean to Python, which counts code points. *)
Inductive re : Type :=
  | Eps
  | Chr (p : ascii -> bool)
  | Seq (a b : re)
  | Alt (a b : re)
  | Opt (a : re)                        (* a?      *)
  | Star (p : ascii -> bool)            (* [p]*    *)
  | LazyStar (p : ascii -> bool)        (* [p]*?   *)
  | UpTo (n : nat) (p : ascii -> bool)  (* [p]{0,n} *)
  | Group (a : re)                      (* ( a ), the pattern's group 1 *)
  | Ahead (a : re)                      (* (?= a ) *)
  | Bol                                 (* ^ under MULTILINE *)
  | Eos.                                (* $ without MULTILINE *)

Section Exec.
Context {R : Type}.

  (** A continuation receives the remaining text, the character just
      before it, and the text of group 1 if the group has been closed. *)
Definition cont : Type := string -> option ascii -> option string -> option R.

Fixpoint star (p : ascii -> bool) (s : string) (prev : option ascii)
    (cap : option string) (k : cont) : option R :=
  match s with
  | String c s' =>
      if p c
      then match star p s' (Some c) cap k with
           | Some x => Some x
           | None => k s prev cap
           end
      else k s prev cap
  | EmptyString => k s prev cap
  end.

Fixpoint lazy_star (p : ascii -> bool) (s : string) (prev : option ascii)
    (cap : option string) (k : cont) : option R :=
  match k s prev cap with
  | Some x => Some x
  | None =>
      match s with
      | String c s' => if p c then lazy_star p s' (Some c) cap k else None
      | EmptyString => None
      end
  end.

Fixpoint upto (n : nat) (p : ascii -> bool) (s : string) (prev : option ascii)
    (cap : option string) (k : cont) : option R :=
  match n, s with
  | S n', String c s' =>
      if p c
      then match upto n' p s' (Some c) cap k with
           | Some x => Some x
           | None => k s prev cap
           end
      else k s prev cap
  | _, _ => k s prev cap
  end.
End Exec.

(** The text between two positions of the same string, given as suffixes. *)
Definition consumed (s s' : string) : string :=
  String.substring 0 (String.length s - String.length s') s.

Definition at_bol (prev : option ascii) : bool :=
  match prev with
  | None => true
  | Some c => Ascii.eqb c "010"%char
  end.

Definition at_eos (s : string) : bool :=
  match s with
  | EmptyString => true
  | String c EmptyString => Ascii.eqb c "010"%char
  | _ => false
  end.

(** Backtracking match of [r] at the head of [s]: alternatives in pattern
    order, greedy operators longest first, lazy ones shortest first. *)
Fixpoint exec (r : re) (R : Type) (s : string) (prev : option ascii)
    (cap : option string) (k : @cont R) : option R :=
  match r with
  | Eps => k s prev cap
  | Chr p =>
      match s with
      | String c s' => if p c then k s' (Some c) cap else None
      | EmptyString => None
      end
  | Seq a b => exec a R s prev cap (fun s' prev' cap' => exec b R s' prev' cap' k)
  | Alt a b =>
      match exec a R s prev cap k with
      | Some x => Some x
      | None => exec b R s prev cap k
      end
  | Opt a =>
      match exec a R s prev cap k with
      | Some x => Some x
      | None => k s prev cap
      end
  | Star p => star p s prev cap k
  | LazyStar p => lazy_star p s prev cap k
  | UpTo n p => upto n p s prev cap k
  | Group a => exec a R s prev cap (fun s' prev' _ => k s' prev' (Some (consumed s s')))
  | Ahead a =>
      match exec a unit s prev cap (fun _ _ _ => Some tt) with
      | Some _ => k s prev cap
      | None => None
      end
  | Bol => if at_bol prev then k s prev cap else None
  | Eos => if at_eos s then k s prev cap else None
  end.

(** One match attempt at the head of [s]: group 1 and the text left. *)
Definition match_here (r : re) (s : string) (prev : option ascii)
    : option (option string * string) :=
  exec r _ s prev None (fun s' _ cap => Some (cap, s')).

(** [[m.group(1) for m in re.finditer(r, s)]].  [skip] counts the characters
    of the last match still to be stepped over.  The patterns below start
    with a literal, so no match is empty, and their group lies on every
    path, so it is always set. *)
Fixpoint finditer_from (r : re) (s : string) (prev : option ascii) (skip : nat)
    : list string :=
  match skip with
  | S n =>
      match s with
      | String c s' => finditer_from r s' (Some c) n
      | EmptyString => []
      end
  | O =>
      match match_here r s prev with
      | Some (cap, rest) =>
          default EmptyString cap ::
          match s with
          | String c s' =>
              finditer_from r s' (Some c)
                (Nat.pred (String.length s - String.length rest))
          | EmptyString => []
          end
      | None =>
          match s with
          | String c s' => finditer_from r s' (Some c) 0
          | EmptyString => []
          end
      end
  end.

Definition finditer_group1 (r : re) (s : string) : list string :=
  finditer_from r s None 0.

Definition cons_head (c : ascii) (pieces : list string) : list string :=
  match pieces with
  | [] => [String c EmptyString]
  | p :: ps => String c p :: ps
  end.

(** [re.split(r, s)] for a pattern without groups that cannot match the
    empty string. *)
Fixpoint split_from (r : re) (s : string) (prev : option ascii) (skip : nat)
    : list string :=
  match skip with
  | S n =>
      match s with
      | String c s' => split_from r s' (Some c) n
      | EmptyString => [EmptyString]
      end
  | O =>
      match s with
      | EmptyString => [EmptyString]
      | String c s' =>
          match match_here r s prev with
          | Some (_, rest) =>
              match String.length s - String.length rest with
              | O => cons_head c (split_from r s' (Some c) 0)
              | S n => EmptyString :: split_from r s' (Some c) n
              end
          | None => cons_head c (split_from r s' (Some c) 0)
          end
      end
  end.

Definition split (r : re) (s : string) : list string := split_from r s None 0.

(** ** Pattern construction *)

Definition any_char : ascii -> bool := fun _ => true.
Definition char (c : ascii) : ascii -> bool := fun x => Ascii.eqb x c.
(** A literal character under IGNORECASE, on ASCII text.  (Python also
    matches U+0131 with [i], U+017F with [s] and U+212A with [k].) *)
Definition ichar (c : ascii) : ascii -> bool :=
  fun x => Ascii.eqb (lower_char x) (lower_char c).
Definition not_char (c : ascii) : ascii -> bool := fun x => negb (Ascii.eqb x c).
(** [[A-Z]] under IGNORECASE, on ASCII text. *)
Definition letter : ascii -> bool := fun x => is_upper x || is_lower x.

Fixpoint lit (s : string) : re :=
  match s with
  | EmptyString => Eps
  | String c s' => Seq (Chr (char c)) (lit s')
  end.

Fixpoint ilit (s : string) : re :=
  match s with
  | EmptyString => Eps
  | String c s' => Seq (Chr (ichar c)) (ilit s')
  end.

Fixpoint seqs (rs : list re) : re :=
  match rs with
  | [] => Eps
  | [r] => r
  | r :: rs' => Seq r (seqs rs')
  end.

End Re.

(* ===================================================================== *)
(** * Data classes *)
(* ===================================================================== *)

(** Address of an [Experience] instance in the object store. *)
Definition loc : Type := nat.

Module Experience.
Record t : Type := mk {
  title : string;
  company : string;
  duration : string;
  achievements : list string;
  skills : list string;
  relevance_score : float
}.

  (** [exp.relevance_score = score] *)
Definition set_relevance_score (exp : t) (score : float) : t :=
  mk (title exp) (company exp) (duration exp) (achievements exp) (skills exp) score.
End Experience.

Module Education.
Record t : Type := mk {
  degree : string;
  institution : string;
  year : string;
  details : option (list string)
}.
End Education.

Module UserProfile.
Record t : Type := mk {
  name : string;
  email : string;
  phone : string;
  linkedin : string;
  location : string;
  summary : string;
  experiences : list loc;
  education : list Education.t;
  skills : list string;
  certifications : list string;
  languages : list string
}.
End UserProfile.

(** The object store: the [Experience] instances reachable by the caller. *)
Abbreviation store := (gmap loc Experience.t).

(* ===================================================================== *)
(** * JobDescriptionAnalyzer *)
(* ===================================================================== *)

Module JobDescriptionAnalyzer.

(** The class attribute. *)
Definition PM_KEYWORDS : dict (list string) :=
  [ ("core_skills",
      [ "product management"; "product strategy"; "roadmap"; "user stories";
        "agile"; "scrum"; "kanban"; "sprint planning"; "backlog management";
        "stakeholder management"; "cross-functional"; "data analysis";
        "market research"; "competitive analysis"; "user research"; "ux/ui";
        "metrics"; "kpis"; "analytics"; "a/b testing"; "experimentation" ]);
    ("technical_skills",
      [ "sql"; "python"; "jira"; "confluence"; "figma"; "sketch";
        "google analytics"; "mixpanel"; "amplitude"; "tableau";
        "api"; "sdk"; "aws"; "azure"; "gcp"; "docker"; "kubernetes" ]);
    ("soft_skills",
      [ "leadership"; "communication"; "collaboration"; "problem solving";
        "critical thinking"; "decision making"; "negotiation";
        "presentation"; "mentoring"; "coaching"; "influence" ]);
    ("industries",
      [ "saas"; "fintech"; "healthcare"; "e-commerce"; "mobile";
        "enterprise"; "b2b"; "b2c"; "marketplace"; "platform" ]) ].

(** An analyzer instance.  [self.PM_KEYWORDS] resolves to the class
    attribute unless a subclass or the instance overrides it, so the table
    is a field; [all_keywords] is the attribute filled by [__init__]. *)
Record t : Type := mk {
  keyword_table : dict (list string);
  all_keywords : list string
}.

Definition init_with (table : dict (list string)) : t :=
  mk table (fold_left (fun acc category => acc ++ category) (values table) []).

(** [JobDescriptionAnalyzer()] *)
Definition __init__ : t := init_with PM_KEYWORDS.

(** [{'keyword': keyword, 'count': count}] *)
Record kw_data : Type := mk_kw { keyword : string; kw_count : nat }.

Module CompanyInfo.
Record t : Type := mk {
  industry : string;
  size : string;
  stage : string;
  culture : list string
}.
End CompanyInfo.

(** The dict returned by [analyze]. *)
Module JobAnalysis.
Record t : Type := mk {
  keywords : dict (list kw_data);
  keyword_scores : dict float;
  requirements : list string;
  company_info : CompanyInfo.t;
  analysis_summary : string
}.
End JobAnalysis.

(** The keywords of one category present in the lowercased text, with
    their frequency. *)
Definition found_in_category (jd_lower : string) (keywords : list string)
    : list kw_data :=
  flat_map (fun keyword =>
              if contains keyword jd_lower
              then [mk_kw keyword (count jd_lower keyword)]
              else [])
           keywords.

(** The first loop of [analyze]. *)
Definition find_keywords (self : t) (jd_lower : string) : dict (list kw_data) :=
  fold_left (fun found_keywords '(category, keywords) =>
               dict_set found_keywords category
                        (found_in_category jd_lower keywords))
            (keyword_table self) [].

(** ** [_extract_requirements] *)

(** [(?=\n\s*[A-Z][^:]*:|\n\s*$)] *)
Definition section_end : Re.re :=
  Re.Ahead
    (Re.Alt
       (Re.seqs [ Re.Chr (Re.char "010"); Re.Star is_space; Re.Chr Re.letter;
                  Re.Star (Re.not_char ":"); Re.Chr (Re.char ":") ])
       (Re.seqs [ Re.Chr (Re.char "010"); Re.Star is_space; Re.Eos ])).

(** [:?\s*(.*?)] followed by the lookahead, the tail shared by the four
    patterns; IGNORECASE and DOTALL are in force. *)
Definition section_body : Re.re :=
  Re.seqs [ Re.Opt (Re.Chr (Re.char ":")); Re.Star is_space;
            Re.Group (Re.LazyStar Re.any_char); section_end ].

Definition req_patterns : list Re.re :=
  [ Re.seqs [ Re.ilit "requirement"; Re.Opt (Re.Chr (Re.ichar "s")); section_body ];
    Re.seqs [ Re.ilit "qualification"; Re.Opt (Re.Chr (Re.ichar "s")); section_body ];
    Re.seqs [ Re.ilit "what you"; Re.UpTo 20 Re.any_char; Re.ilit "need"; section_body ];
    Re.seqs [ Re.ilit "you should have"; section_body ] ].

(** The bullet class of the split pattern: the three code points of the
    source text (U+00E2, U+20AC, U+00A2) as UTF-8, [-] and [*]. *)
Definition bullet : Re.re :=
  Re.Alt (Re.lit (String "195" (String "162" EmptyString)))
  (Re.Alt (Re.lit (String "226" (String "130" (String "172" EmptyString))))
  (Re.Alt (Re.lit (String "194" (String "162" EmptyString)))
          (Re.Chr (fun c => Ascii.eqb c "-" || Ascii.eqb c "*")))).

(** [[...]\s*|^\s*\d+\.?\s*] under MULTILINE. *)
Definition item_separator : Re.re :=
  Re.Alt
    (Re.Seq bullet (Re.Star is_space))
    (Re.seqs [ Re.Bol; Re.Star is_space; Re.Chr is_digit; Re.Star is_digit;
               Re.Opt (Re.Chr (Re.char ".")); Re.Star is_space ]).

Definition section_items (section : string) : list string :=
  flat_map (fun item => if truthy (strip item) then [strip item] else [])
           (Re.split item_separator section).

Definition _extract_requirements (jd : string) : list string :=
  let requirements :=
    fold_left (fun requirements pattern =>
                 fold_left (fun requirements group1 =>
                              requirements ++ section_items (strip group1))
                           (Re.finditer_group1 pattern jd) requirements)
              req_patterns [] in
  take 10 requirements.

(** ** [_extract_company_info] *)

Definition first_industry (jd_lower : string) (industries : list string) : string :=
  match filter (fun industry => contains industry jd_lower = true) industries with
  | industry :: _ => industry
  | [] => EmptyString
  end.

Definition _extract_company_info (self : t) (jd : string) : result CompanyInfo.t :=
  let jd_lower := lower jd in
  rbind (dict_item (keyword_table self) "industries") (fun industries =>
  let industry := first_industry jd_lower industries in
  let stage :=
    if any (fun term => contains term jd_lower) ["startup"; "early stage"; "seed"]
    then "startup"
    else if any (fun term => contains term jd_lower) ["enterprise"; "fortune"; "large"]
    then "enterprise"
    else EmptyString in
  Ok (CompanyInfo.mk industry EmptyString stage [])).

(** ** [_calculate_keyword_scores] *)

Definition category_weights : dict float :=
  [ ("core_skills", 1.0%float); ("technical_skills", 0.8%float);
    ("soft_skills", 0.6%float); ("industries", 0.7%float) ].

Definition weight_of (category : string) : float :=
  default 0.5%float (dict_get category_weights category).

Definition _calculate_keyword_scores (found_keywords : dict (list kw_data))
    : dict float :=
  fold_left (fun scores '(category, keywords) =>
               let weight := weight_of category in
               fold_left (fun scores kw =>
                            dict_set scores (keyword kw)
                                     (PrimFloat.mul (float_of_int (kw_count kw)) weight))
                         keywords scores)
            found_keywords [].

(** ** [_generate_analysis_summary] *)

Definition total_keywords (found_keywords : dict (list kw_data)) : nat :=
  fold_left (fun total kws => total + length kws) (values found_keywords) 0.

Definition _generate_analysis_summary (found_keywords : dict (list kw_data))
    (requirements : list string) : string :=
  let top_categories :=
    take 3 (sorted_reverse Nat.ltb (fun x => length x.2) found_keywords) in
  "Found " +:+ str_of_int (total_keywords found_keywords) +:+
  " relevant PM keywords. " +:+
  "Top focus areas: " +:+ join ", " (top_categories.*1) +:+ ". " +:+
  "Identified " +:+ str_of_int (length requirements) +:+ " key requirements.".

(** ** [analyze] *)

Definition analyze_text (self : t) (job_description : string)
    : result JobAnalysis.t :=
  let jd_lower := lower job_description in
  let found_keywords := find_keywords self jd_lower in
  let requirements := _extract_requirements job_description in
  rbind (_extract_company_info self job_description) (fun company_info =>
  let keyword_scores := _calculate_keyword_scores found_keywords in
  Ok (JobAnalysis.mk found_keywords keyword_scores requirements company_info
        (_generate_analysis_summary found_keywords requirements))).

(** The argument is annotated [str] but nothing checks it: [None] reaches
    [job_description.lower()], which raises. *)
Definition analyze (self : t) (job_description : option string)
    : result JobAnalysis.t :=
  match job_description with
  | None => Raise AttributeError
  | Some text => analyze_text self text
  end.

End JobDescriptionAnalyzer.

(* ===================================================================== *)
(** * ResumeTailor *)
(* ===================================================================== *)

Module ResumeTailor.

Import JobDescriptionAnalyzer.

(** What a method call can observe and change: the instance attributes of
    [self] and the object store. *)
Record state : Type := mk_state {
  user_profile : UserProfile.t;
  analyzer : JobDescriptionAnalyzer.t;
  objects : store
}.

(** [ResumeTailor(user_profile)] in a given store. *)
Definition __init__ (user_profile : UserProfile.t) (objects : store) : state :=
  mk_state user_profile JobDescriptionAnalyzer.__init__ objects.

(** Computations over [state] that may raise; the state reached when the
    exception leaves is kept, since assignments made before are not undone. *)
Definition M (A : Type) : Type := state -> result A * state.

Definition ret {A} (a : A) : M A := fun st => (Ok a, st).

Definition bind {A B} (m : M A) (k : A -> M B) : M B :=
  fun st =>
    match m st with
    | (Ok a, st') => k a st'
    | (Raise e, st') => (Raise e, st')
    end.

Notation "x <- m ;; k" := (bind m (fun x => k))
  (at level 100, m at next level, right associativity).

Definition gets {A} (f : state -> A) : M A := fun st => (Ok (f st), st).

Definition lift {A} (r : result A) : M A := fun st => (r, st).

(** Dereference an [Experience]. *)
Definition load (r : loc) : M Experience.t :=
  fun st =>
    match objects st !! r with
    | Some exp => (Ok exp, st)
    | None => (Raise Unallocated, st)
    end.

(** Attribute assignment [exp.relevance_score = score] on the object at [r]. *)
Definition assign_relevance_score (r : loc) (score : float) : M unit :=
  fun st =>
    match objects st !! r with
    | Some exp =>
        (Ok tt,
         mk_state (user_profile st) (analyzer st)
                  (<[r := Experience.set_relevance_score exp score]> (objects st)))
    | None => (Raise Unallocated, st)
    end.

(** [for x in xs: body(x)], collecting what each iteration appends. *)
Fixpoint for_each {A B} (xs : list A) (body : A -> M B) : M (list B) :=
  match xs with
  | [] => ret []
  | x :: xs' => y <- body x ;; ys <- for_each xs' body ;; ret (y :: ys)
  end.

(** The dict returned by [tailor_resume]. *)
Module PersonalInfo.
Record t : Type := mk {
  name : string;
  email : string;
  phone : string;
  linkedin : string;
  location : string
}.
End PersonalInfo.

Module TailoredResume.
Record t : Type := mk {
  personal_info : PersonalInfo.t;
  summary : string;
  experiences : list loc;
  skills : list string;
  education : list Education.t;
  certifications : list string;
  job_analysis : JobAnalysis.t;
  optimization_notes : list string
}.
End TailoredResume.

(** ** [_score_experiences] *)

Definition exp_text (exp : Experience.t) : string :=
  lower (Experience.title exp +:+ " " +:+ Experience.company exp +:+ " " +:+
         join " " (Experience.achievements exp) +:+ " " +:+
         join " " (Experience.skills exp)).

Definition pm_titles : list string := ["product manager"; "product owner"; "pm"].

(** The score the loop body computes for one experience. *)
Definition experience_score (keyword_scores : dict float) (exp : Experience.t)
    : float :=
  let text := exp_text exp in
  let score :=
    fold_left (fun score '(keyword, kw_score) =>
                 if contains keyword text then PrimFloat.add score kw_score else score)
              keyword_scores 0.0%float in
  if any (fun title => contains title (lower (Experience.title exp))) pm_titles
  then PrimFloat.add score 5.0%float
  else score.

(** [sorted(refs, key=lambda x: x.relevance_score, reverse=True)]: the key
    of every element is read from the store first, then the list is
    ordered. *)
Definition sorted_by_relevance (refs : list loc) : M (list loc) :=
  keyed <- for_each refs (fun r => exp <- load r ;;
                                   ret (Experience.relevance_score exp, r)) ;;
  ret ((sorted_reverse PrimFloat.ltb fst keyed).*2).

Definition _score_experiences (jd_analysis : JobAnalysis.t) : M (list loc) :=
  let keyword_scores := JobAnalysis.keyword_scores jd_analysis in
  experiences <- gets (fun st => UserProfile.experiences (user_profile st)) ;;
  scored_experiences <-
    for_each experiences (fun r =>
      exp <- load r ;;
      _ <- assign_relevance_score r (experience_score keyword_scores exp) ;;
      ret r) ;;
  sorted_by_relevance scored_experiences.

(** ** [_optimize_summary] *)

Definition has_theme (top_keywords : dict float) (a b : string) : bool :=
  any (fun kw : string * float => contains a kw.1 || contains b kw.1) top_keywords.

(** The text built from the profile summary and the keyword scores. *)
Definition optimized_summary (base_summary : string) (keyword_scores : dict float)
    : string :=
  let top_keywords := take 8 (sorted_reverse PrimFloat.ltb snd keyword_scores) in
  let themes :=
    (if has_theme top_keywords "agile" "scrum" then ["agile methodologies"] else []) ++
    (if has_theme top_keywords "data" "analytics"
     then ["data-driven decision making"] else []) ++
    (if has_theme top_keywords "stakeholder" "cross-functional"
     then ["stakeholder management"] else []) in
  let keyword_phrase := join ", " ((take 5 top_keywords).*1) in
  let optimized := base_summary +:+ " Specialized in " +:+ keyword_phrase in
  let optimized :=
    match themes with
    | [] => optimized
    | _ => optimized +:+ " with proven expertise in " +:+ join ", " themes
    end in
  optimized +:+ ".".

(** [focus_areas] is accepted and never read. *)
Definition _optimize_summary (jd_analysis : JobAnalysis.t)
    (focus_areas : option (list string)) : M string :=
  let keyword_scores := JobAnalysis.keyword_scores jd_analysis in
  base_summary <- gets (fun st => UserProfile.summary (user_profile st)) ;;
  ret (optimized_summary base_summary keyword_scores).

(** ** [_prioritize_skills] *)

(** The score of one skill.  The default of [get] is the [int] 0, which
    compares and adds like the float zero. *)
Definition skill_score (keyword_scores : dict float) (skill : string) : float :=
  let score := default 0%float (dict_get keyword_scores (lower skill)) in
  if dict_mem keyword_scores (lower skill)
  then PrimFloat.add score 2.0%float
  else score.

(** The skills ordered by score; the scores are dropped. *)
Definition prioritized (keyword_scores : dict float) (skills : list string)
    : list string :=
  let skill_scores := map (fun skill => (skill, skill_score keyword_scores skill)) skills in
  (sorted_reverse PrimFloat.ltb snd skill_scores).*1.

Definition _prioritize_skills (jd_analysis : JobAnalysis.t) : M (list string) :=
  let keyword_scores := JobAnalysis.keyword_scores jd_analysis in
  skills <- gets (fun st => UserProfile.skills (user_profile st)) ;;
  ret (prioritized keyword_scores skills).

(** ** [_generate_optimization_notes] *)

Definition _generate_optimization_notes (jd_analysis : JobAnalysis.t)
    : result (list string) :=
  let keywords := JobAnalysis.keywords jd_analysis in
  let note1 :=
    "Optimized for " +:+ str_of_int (total_keywords keywords) +:+
    " relevant PM keywords from job description" in
  rbind (max_by Nat.ltb (fun x : string * list kw_data => length x.2) keywords)
        (fun top =>
  let top_category := top.1 in
  Ok [ note1;
       "Emphasized " +:+ replace top_category "_" " " +:+ " based on job requirements";
       "Reordered experiences by relevance score";
       "Prioritized skills matching job description" ]).

(** ** [tailor_resume] *)

Definition tailor_resume (job_description : option string)
    (focus_areas : option (list string)) : M TailoredResume.t :=
  self_analyzer <- gets analyzer ;;
  jd_analysis <- lift (analyze self_analyzer job_description) ;;
  scored_experiences <- _score_experiences jd_analysis ;;
  tailored_summary <- _optimize_summary jd_analysis focus_areas ;;
  prioritized_skills <- _prioritize_skills jd_analysis ;;
  profile <- gets user_profile ;;
  optimization_notes <- lift (_generate_optimization_notes jd_analysis) ;;
  ret (TailoredResume.mk
         (PersonalInfo.mk (UserProfile.name profile) (UserProfile.email profile)
                          (UserProfile.phone profile) (UserProfile.linkedin profile)
                          (UserProfile.location profile))
         tailored_summary
         (take 5 scored_experiences)
         (take 15 prioritized_skills)
         (UserProfile.education profile)
         (UserProfile.certifications profile)
         jd_analysis
         optimization_notes).

End ResumeTailor.

Import JobDescriptionAnalyzer ResumeTailor.

(* ===================================================================== *)
(** * Specification vocabulary *)
(* ===================================================================== *)

(** ** Floats *)

(** Specification floats other than NaN, ranked so that the lexicographic
    order of the ranks is the order [SFcompare] computes. *)
Definition sf_rank (f : spec_float) : Z * Z * Z :=
  match f with
  | S754_nan => (0, 0, 0)
  | S754_zero _ => (0, 0, 0)
  | S754_infinity s => (if s then -2 else 2, 0, 0)
  | S754_finite s m e => if s then (-1, - e, Z.neg m) else (1, e, Z.pos m)
  end%Z.

Definition lex_lt (a b : Z * Z * Z) : Prop :=
  let '(a1, a2, a3) := a in
  let '(b1, b2, b3) := b in
  (a1 < b1 \/ (a1 = b1 /\ (a2 < b2 \/ (a2 = b2 /\ a3 < b3))))%Z.

Definition sf_is_nan (f : spec_float) : bool :=
  match f with S754_nan => true | _ => false end.

(** A zero, a positive finite number or plus infinity. *)
Definition sf_nonneg (f : spec_float) : bool :=
  match f with
  | S754_zero _ => true
  | S754_infinity s | S754_finite s _ _ => negb s
  | S754_nan => false
  end.

Definition sf_pos (f : spec_float) : bool :=
  match f with
  | S754_infinity s | S754_finite s _ _ => negb s
  | _ => false
  end.

Definition is_nan (x : float) : bool := sf_is_nan (Prim2SF x).

(** [0 <= x] in Python. *)
Definition nonneg (x : float) : bool := PrimFloat.leb 0 x.

(** Bit length plus exponent: the binade of [m * 2^e]. *)
Definition mag (m : positive) (e : Z) : Z := (Z.pos (digits2_pos m) + e)%Z.

(** ** Lists and sorting *)




(** Every occurrence of [x] in [l] comes before every occurrence of [y]. *)
Definition all_before {A} (l : list A) (x y : A) : Prop :=
  forall i j, l !! i = Some x -> l !! j = Some y -> i < j.

(** ** Keyword scoring *)

(** Whether a category of the table contributes a score for [phrase]. *)
Definition hits (jd_lower phrase : string) (entry : string * list string) : bool :=
  bool_decide (phrase ∈ entry.2) && contains phrase jd_lower.

(** The last category, in iteration order, that lists a phrase occurring in
    the text. *)
Definition last_category (table : dict (list string)) (jd_lower phrase : string)
    : option string :=
  fst <$> last (filter (fun entry => hits jd_lower phrase entry = true) table).

(** The score the specification gives a phrase. *)
Definition expected_score (table : dict (list string)) (jd_lower phrase : string)
    : option float :=
  (fun category =>
     PrimFloat.mul (float_of_int (count jd_lower phrase)) (weight_of category))
  <$> last_category table jd_lower phrase.

Definition all_nonneg (scores : dict float) : Prop :=
  Forall (fun v => nonneg v = true) (values scores).

(** ** Experiences in the store *)

(** Every experience of the profile is a live object. *)
Definition allocated (st : state) : Prop :=
  Forall (fun r => is_Some (objects st !! r))
         (UserProfile.experiences (user_profile st)).

(** ** ASCII inputs *)

(** The fields of an experience that ranking reads are ASCII. *)
Definition ascii_fields (exp : Experience.t) : bool :=
  isascii (Experience.title exp) && isascii (Experience.company exp) &&
  forallb isascii (Experience.achievements exp) &&
  forallb isascii (Experience.skills exp).

(** The experiences of the profile are written in ASCII. *)
Definition ascii_experiences (st : state) : Prop :=
  Forall (fun r => from_option ascii_fields true (objects st !! r) = true)
         (UserProfile.experiences (user_profile st)).

(** The skills of the profile are written in ASCII. *)
Definition ascii_skills (st : state) : Prop :=
  Forall (fun skill => isascii skill = true) (UserProfile.skills (user_profile st)).

(** The job description, when one is passed, is written in ASCII. *)
Definition ascii_argument (job_description : option string) : bool :=
  from_option isascii true job_description.


(** The score ranking computes for the object at [r]. *)
Definition score_at (keyword_scores : dict float) (objs : store) (r : loc) : float :=
  from_option (experience_score keyword_scores) 0%float (objs !! r).


Definition rescore (keyword_scores : dict float) (exp : Experience.t) : Experience.t :=
  Experience.set_relevance_score exp (experience_score keyword_scores exp).

(** The store after ranking has assigned the scores of the objects [refs]. *)
Definition rescored (keyword_scores : dict float) (refs : list loc) (objs : store)
    : store :=
  fold_left (fun objs r =>
               match objs !! r with
               | Some exp => <[r := rescore keyword_scores exp]> objs
               | None => objs
               end)
            refs objs.

Definition has_pm_title (exp : Experience.t) : bool :=
  any (fun title => contains title (lower (Experience.title exp))) pm_titles.

Definition pm_at (objs : store) (r : loc) : bool :=
  from_option has_pm_title false (objs !! r).

(** Stores that differ at most in relevance scores. *)
Definition forget_score (exp : Experience.t) : Experience.t :=
  Experience.set_relevance_score exp 0%float.

Definition same_but_scores (objs objs' : store) : Prop :=
  forget_score <$> objs = forget_score <$> objs'.

(** A tailored resume with its experiences dereferenced. *)
Definition content (st : state) (resume : TailoredResume.t)
    : TailoredResume.t * list (option Experience.t) :=
  (resume, map (fun r => objects st !! r) (TailoredResume.experiences resume)).

(** ** Order of a sorted list *)

Section SortedOrder.
Context {A K : Type} (lt : K -> K -> bool) (key : A -> K).


(** [y] does not outrank [x]. *)
Definition not_below (x y : A) : Prop := lt (key x) (key y) = false.

End SortedOrder.

(** ** Assembly *)

(** The state ranking leaves. *)
Definition ranked_state (keyword_scores : dict float) (st : state) : state :=
  mk_state (user_profile st) (analyzer st)
           (rescored keyword_scores (UserProfile.experiences (user_profile st))
                     (objects st)).

(** The resume assembled from an analysis and its notes. *)
Definition assembled (st : state) (jd_analysis : JobAnalysis.t) (notes : list string)
    : TailoredResume.t :=
  let profile := user_profile st in
  let keyword_scores := JobAnalysis.keyword_scores jd_analysis in
  TailoredResume.mk
    (PersonalInfo.mk (UserProfile.name profile) (UserProfile.email profile)
                     (UserProfile.phone profile) (UserProfile.linkedin profile)
                     (UserProfile.location profile))
    (optimized_summary (UserProfile.summary profile) keyword_scores)
    (take 5 (sorted_reverse PrimFloat.ltb (score_at keyword_scores (objects st))
                            (UserProfile.experiences profile)))
    (take 15 (prioritized keyword_scores (UserProfile.skills profile)))
    (UserProfile.education profile)
    (UserProfile.certifications profile)
    jd_analysis
    notes.

(* ===================================================================== *)
(** * A worked example *)
(* ===================================================================== *)

Module Example.

Definition job_text : string := "Senior Product Manager
Requirements:
- 5+ years of Agile and scrum; agile coaching
* SQL, Python and data analysis
1. Strong stakeholder management
2) SaaS platform experience
Benefits: none
".

Definition engineer : Experience.t :=
  Experience.mk "Software Engineer" "Initech" "2015-2018"
    ["Built the billing API"; "Wrote SQL reports"] ["Python"; "SQL"] 0.

Definition manager : Experience.t :=
  Experience.mk "Product Manager" "Globex" "2018-2021"
    ["Led agile roadmap planning"] ["Scrum"; "Jira"] 0.

Definition analyst : Experience.t :=
  Experience.mk "Business Analyst" "Hooli" "2012-2015"
    ["Reported to finance"] ["Excel"] 0.

Definition heap : store := {[ 10 := engineer; 11 := manager; 12 := analyst ]}.

Definition profile : UserProfile.t :=
  UserProfile.mk "Ada" "ada@example.org" "555-0100" "in/ada" "Paris"
    "Product leader."
    [10; 12; 11]
    [Education.mk "BSc" "ENS" "2011" None]
    ["Excel"; "SQL Server"; "SQL"; "Writing"; "Python"]
    ["CSPO"] ["French"].

(** The analysis of [job_text] by the shipped analyzer. *)
Definition analysis : JobAnalysis.t :=
  match analyze JobDescriptionAnalyzer.__init__ (Some job_text) with
  | Ok jd_analysis => jd_analysis
  | Raise _ => JobAnalysis.mk [] [] [] (CompanyInfo.mk "" "" "" []) ""
  end.

(** The tailor of [profile] over [heap]. *)
Definition tailor : state := ResumeTailor.__init__ profile heap.

(** The analysis of the empty text: no keyword is found. *)
Definition no_keywords : JobAnalysis.t :=
  match analyze JobDescriptionAnalyzer.__init__ (Some "") with
  | Ok jd_analysis => jd_analysis
  | Raise _ => JobAnalysis.mk [] [] [] (CompanyInfo.mk "" "" "" []) ""
  end.

(** An analyzer whose keyword table has the four categories and no phrase,
    and the tailor that uses it. *)
Definition bare_analyzer : JobDescriptionAnalyzer.t :=
  init_with [ ("core_skills", []); ("technical_skills", []);
              ("soft_skills", []); ("industries", []) ].

Definition bare_tailor : state := mk_state profile bare_analyzer heap.

(** The store after a first tailoring, every relevance score put back to
    the default of the data class. *)
Definition reset_store : store :=
  forget_score <$> objects (tailor_resume (Some job_text) None tailor).2.

End Example.

(* ===================================================================== *)
(** * Further vocabulary *)
(* ===================================================================== *)

(** [x] is the first item of [l] with the largest key. *)
Definition first_maximal {A} (key : A -> nat) (l : list A) (x : A) : Prop :=
  exists i,
    l !! i = Some x /\
    (forall y, y ∈ l -> key y <= key x) /\
    (forall j y, j < i -> l !! j = Some y -> key y < key x).

(** No keyword of the score map occurs in the text of the experience. *)
Definition unmatched (keyword_scores : dict float) (exp : Experience.t) : Prop :=
  Forall (fun kv : string * float => contains kv.1 (exp_text exp) = false)
         keyword_scores.

(** The four words one of which must open a requirement section. *)
Definition requirement_headings : list string :=
  ["requirement"; "qualification"; "what you"; "you should have"].

(** The terms of the stage classifier of [_extract_company_info]. *)
Definition startup_terms : list string := ["startup"; "early stage"; "seed"].
Definition enterprise_terms : list string := ["enterprise"; "fortune"; "large"].

(** The first item of [l] that satisfies [p]: every item before it fails. *)
Definition first_such {A} (p : A -> bool) (l : list A) (x : A) : Prop :=
  exists i,
    l !! i = Some x /\ p x = true /\
    (forall j y, j < i -> l !! j = Some y -> p y = false).

Module Cases.

(** A job text in which no keyword of the shipped table occurs and no
    requirement section opens. *)
Definition plain_text : string := "We build rockets and fly them.".

(** The example job text in lower case. *)
Definition lowered_text : string := lower Example.job_text.

(** A tailor whose analyzer has no industries category. *)
Definition headless_analyzer : JobDescriptionAnalyzer.t :=
  init_with [ ("core_skills", ["agile"; "scrum"]) ].

Definition headless_tailor : state :=
  mk_state Example.profile headless_analyzer Example.heap.

(** A profile with more experiences than the resume keeps. *)
Definition intern : Experience.t :=
  Experience.mk "Intern" "Acme" "2010" ["Made coffee"] [] 0.

Definition long_heap : store :=
  {[ 1 := Example.engineer; 2 := Example.manager; 3 := Example.analyst;
     4 := intern; 5 := Example.engineer; 6 := Example.manager; 7 := intern ]}.

Definition long_profile : UserProfile.t :=
  UserProfile.mk "Bob" "bob@example.org" "555-0101" "in/bob" "Lyon"
    "Builder."
    [4; 1; 2; 3; 7; 5; 6]
    []
    ["Excel"; "SQL"; "Go"]
    [] [].

Definition long_tailor : state := ResumeTailor.__init__ long_profile long_heap.

End Cases.

(* ===================================================================== *)
(** * Facts about binary64 arithmetic *)
(* ===================================================================== *)

Module FloatFacts.

Lemma SFltb_rank f g :
  sf_is_nan f = false -> sf_is_nan g = false ->
  SFltb f g = true <-> lex_lt (sf_rank f) (sf_rank g).
Proof.
  unfold SFltb.
  destruct f as [s1|s1| |s1 m1 e1], g as [s2|s2| |s2 m2 e2]; intros Hf Hg;
    try discriminate; simpl;
    try (destruct s1); try (destruct s2); simpl; try (split; [discriminate|lia]);
    try (split; [lia|discriminate]); try (split; [reflexivity|lia]); try (split; [lia | reflexivity]).
  all: change (Pos.compare_cont Eq m1 m2) with (Pos.compare m1 m2).
  all: destruct (Z.compare_spec e1 e2); destruct (Pos.compare_spec m1 m2); simpl;
    split; try discriminate; try reflexivity; try lia.
Qed.



Lemma lex_lt_asym a b : lex_lt a b -> ~ lex_lt b a.
Proof. destruct a as [[a1 a2] a3], b as [[b1 b2] b3]; simpl; lia. Qed.

Lemma lex_lt_cotrans a b c : lex_lt a c -> lex_lt a b \/ lex_lt b c.
Proof.
  destruct a as [[a1 a2] a3], b as [[b1 b2] b3], c as [[c1 c2] c3]; simpl; lia.
Qed.

Lemma ltb_true_not_nan a b :
  PrimFloat.ltb a b = true -> is_nan a = false /\ is_nan b = false.
Proof.
  rewrite FloatAxioms.ltb_spec. unfold is_nan, SFltb.
  destruct (Prim2SF a), (Prim2SF b); simpl; auto; discriminate.
Qed.

Lemma ltb_asym a b : PrimFloat.ltb a b = true -> PrimFloat.ltb b a = false.
Proof.
  intros H. destruct (ltb_true_not_nan _ _ H) as [Ha Hb].
  destruct (PrimFloat.ltb b a) eqn:E; [|reflexivity].
  rewrite FloatAxioms.ltb_spec in H, E.
  apply SFltb_rank in H; auto. apply SFltb_rank in E; auto.
  destruct (lex_lt_asym _ _ H E).
Qed.

Lemma ltb_false_trans a b c :
  is_nan b = false ->
  PrimFloat.ltb a b = false -> PrimFloat.ltb b c = false -> PrimFloat.ltb a c = false.
Proof.
  intros Hb Hab Hbc.
  destruct (PrimFloat.ltb a c) eqn:E; [|reflexivity].
  destruct (ltb_true_not_nan _ _ E) as [Ha Hc].
  rewrite FloatAxioms.ltb_spec in *.
  apply SFltb_rank in E; auto.
  destruct (lex_lt_cotrans _ (sf_rank (Prim2SF b)) _ E) as [H|H];
    apply SFltb_rank in H; auto; congruence.
Qed.


Lemma nonneg_spec x : nonneg x = sf_nonneg (Prim2SF x).
Proof.
  unfold nonneg. rewrite FloatAxioms.leb_spec.
  change (Prim2SF 0) with (S754_zero false).
  unfold SFleb. destruct (Prim2SF x) as [s|s| |s m e]; simpl; auto; destruct s; auto.
Qed.

Lemma nonneg_not_nan x : nonneg x = true -> is_nan x = false.
Proof. rewrite nonneg_spec. unfold is_nan. destruct (Prim2SF x); simpl; auto; discriminate. Qed.

Lemma pos_spec x : PrimFloat.ltb 0 x = sf_pos (Prim2SF x).
Proof.
  rewrite FloatAxioms.ltb_spec.
  change (Prim2SF 0) with (S754_zero false).
  unfold SFltb. destruct (Prim2SF x) as [s|s| |s m e]; simpl; auto; destruct s; auto.
Qed.

(** Right shifts of a non-negative mantissa. *)

Lemma shr_1_nonneg r : (0 <= shr_m r)%Z -> (0 <= shr_m (shr_1 r))%Z.
Proof.
  destruct r as [m r s]; simpl. destruct m as [|p|p]; simpl; try lia.
  - destruct p; simpl; lia.
Qed.

Lemma iter_shr_1_nonneg p : forall r,
  (0 <= shr_m r)%Z -> (0 <= shr_m (SpecFloat.iter_pos shr_1 p r))%Z.
Proof.
  induction p; intros r H; simpl; auto using shr_1_nonneg.
Qed.

Lemma shr_fexp_nonneg pr em m e l :
  (0 <= m)%Z -> (0 <= shr_m (fst (shr_fexp pr em m e l)))%Z.
Proof.
  intros H. unfold shr_fexp, shr.
  assert (H0 : (0 <= shr_m (shr_record_of_loc m l))%Z)
    by (destruct l as [|[]]; simpl; auto).
  destruct (_ - e)%Z; simpl; auto using iter_shr_1_nonneg.
Qed.

Lemma round_nearest_even_ge m l : (m <= round_nearest_even m l)%Z.
Proof. destruct l as [|[]]; simpl; try lia. destruct (Z.even m); lia. Qed.

Lemma binary_round_aux_nonneg pr em m e l :
  (0 <= m)%Z -> sf_nonneg (binary_round_aux pr em false m e l) = true.
Proof.
  intros H. unfold binary_round_aux.
  pose proof (shr_fexp_nonneg pr em m e l H) as H1.
  destruct (shr_fexp pr em m e l) as [mrs' e']; simpl in H1.
  pose proof (round_nearest_even_ge (shr_m mrs') (loc_of_shr_record mrs')) as H2.
  pose proof (shr_fexp_nonneg pr em
                (round_nearest_even (shr_m mrs') (loc_of_shr_record mrs')) e' loc_Exact
                ltac:(lia)) as H3.
  destruct (shr_fexp pr em _ e' loc_Exact) as [mrs'' e'']; simpl in H3.
  destruct (shr_m mrs''); simpl; try lia; auto.
  destruct (_ <=? _)%Z; auto.
Qed.

Lemma binary_round_nonneg pr em m e :
  sf_nonneg (binary_round pr em false m e) = true.
Proof.
  unfold binary_round. destruct (shl_align _ _ _) as [mz ez].
  apply binary_round_aux_nonneg. lia.
Qed.

Lemma SFadd_nonneg pr em x y :
  sf_nonneg x = true -> sf_nonneg y = true -> sf_nonneg (SFadd pr em x y) = true.
Proof.
  destruct x as [sx|sx| |sx mx ex], y as [sy|sy| |sy my ey]; simpl;
    try discriminate; auto.
  - destruct sx, sy; auto.
  - destruct sx, sy; simpl; try discriminate; auto.
  - destruct sx, sy; simpl; try discriminate. intros _ _.
    apply binary_round_nonneg.
Qed.

Lemma SFmul_nonneg pr em x m e :
  sf_nonneg x = true -> sf_nonneg (SFmul pr em x (S754_finite false m e)) = true.
Proof.
  destruct x as [sx|sx| |sx mx ex]; simpl; try discriminate; auto.
  - destruct sx; auto.
  - destruct sx; simpl; try discriminate. intros _.
    apply binary_round_aux_nonneg. lia.
Qed.

Lemma add_nonneg a b : nonneg a = true -> nonneg b = true -> nonneg (PrimFloat.add a b) = true.
Proof. rewrite !nonneg_spec, FloatAxioms.add_spec. apply SFadd_nonneg. Qed.

Lemma of_uint63_nonneg i : nonneg (PrimFloat.of_uint63 i) = true.
Proof.
  rewrite nonneg_spec, FloatAxioms.of_uint63_spec.
  pose proof (Uint63.to_Z_bounded i) as H.
  unfold binary_normalize. destruct (Uint63.to_Z i); try lia; auto.
  apply binary_round_nonneg.
Qed.

Lemma mul_nonneg a w m e :
  Prim2SF w = S754_finite false m e ->
  nonneg a = true -> nonneg (PrimFloat.mul a w) = true.
Proof. intros Hw. rewrite !nonneg_spec, FloatAxioms.mul_spec, Hw. apply SFmul_nonneg. Qed.

Lemma digits2_size m : digits2_pos m = Pos.size m.
Proof. induction m; simpl; congruence. Qed.

Lemma digits2_mono a b : (a <= b)%positive -> (Z.pos (digits2_pos a) <= Z.pos (digits2_pos b))%Z.
Proof.
  intros H. rewrite !digits2_size.
  pose proof (Pos.size_le a) as Ha. pose proof (Pos.size_gt b) as Hb.
  assert (Hlt : (2 ^ Z.pos (Pos.size a) < 2 ^ Z.succ (Z.pos (Pos.size b)))%Z).
  { rewrite Z.pow_succ_r by lia.
    change 2%Z with (Z.pos 2). rewrite <- !Pos2Z.inj_pow.
    generalize dependent (2 ^ Pos.size a)%positive.
    generalize dependent (2 ^ Pos.size b)%positive. intros. lia. }
  destruct (Z.le_gt_cases (Z.pos (Pos.size a)) (Z.pos (Pos.size b))) as [|Hgt]; auto.
  assert (Hle : (2 ^ Z.succ (Z.pos (Pos.size b)) <= 2 ^ Z.pos (Pos.size a))%Z)
    by (apply Z.pow_le_mono_r; lia).
  lia.
Qed.

Lemma digits2_iter_xO d : forall m,
  Z.pos (digits2_pos (Pos.iter xO m d)) = (Z.pos (digits2_pos m) + Z.pos d)%Z.
Proof.
  induction d using Pos.peano_ind; intros m.
  - simpl. lia.
  - rewrite Pos.iter_succ. simpl. rewrite Pos2Z.inj_succ, IHd. lia.
Qed.

Lemma shl_align_mag mx ex ex' :
  (ex' <= ex)%Z ->
  exists m', shl_align mx ex ex' = (m', ex') /\ mag m' ex' = mag mx ex.
Proof.
  intros H. unfold shl_align, mag.
  destruct (ex' - ex)%Z eqn:E; try lia.
  - assert (ex' = ex) by lia. subst. eauto.
  - eexists; split; [reflexivity|]. rewrite digits2_iter_xO. lia.
Qed.

Lemma shl_align_mag_any mx ex ex' :
  mag (fst (shl_align mx ex ex')) (snd (shl_align mx ex ex')) = mag mx ex.
Proof.
  unfold shl_align, mag.
  destruct (ex' - ex)%Z eqn:E; cbn [fst snd]; auto.
  rewrite digits2_iter_xO. lia.
Qed.

Lemma shr_1_pos r m :
  shr_m r = Z.pos m -> (1 < Z.pos (digits2_pos m))%Z ->
  exists m', shr_m (shr_1 r) = Z.pos m' /\
             Z.pos (digits2_pos m') = (Z.pos (digits2_pos m) - 1)%Z.
Proof.
  destruct r as [m0 r s]; cbn [shr_m]. intros -> H.
  destruct m as [p|p|]; cbn [shr_1 shr_m digits2_pos] in *; try lia;
    exists p; split; auto; rewrite Pos2Z.inj_succ; lia.
Qed.

Lemma iter_shr_1_pos p : forall r m,
  shr_m r = Z.pos m -> (Z.pos p < Z.pos (digits2_pos m))%Z ->
  exists m', shr_m (SpecFloat.iter_pos shr_1 p r) = Z.pos m' /\
             Z.pos (digits2_pos m') = (Z.pos (digits2_pos m) - Z.pos p)%Z.
Proof.
  induction p as [p IH|p IH|]; intros r m Hr Hp; cbn [SpecFloat.iter_pos];
    [ rewrite Pos2Z.inj_xI in * | rewrite Pos2Z.inj_xO in * | ].
  - destruct (shr_1_pos r m Hr) as (m1 & H1 & D1); [lia|].
    destruct (IH _ m1 H1) as (m2 & H2 & D2); [lia|].
    destruct (IH _ m2 H2) as (m3 & H3 & D3); [lia|].
    exists m3; split; auto. lia.
  - destruct (IH _ m Hr) as (m2 & H2 & D2); [lia|].
    destruct (IH _ m2 H2) as (m3 & H3 & D3); [lia|].
    exists m3; split; auto. lia.
  - apply shr_1_pos; auto.
Qed.

Lemma shr_fexp_pos pr em m e l :
  (0 < pr)%Z -> (SpecFloat.emin pr em + pr <= mag m e)%Z ->
  exists m', shr_m (fst (shr_fexp pr em (Z.pos m) e l)) = Z.pos m' /\
             mag m' (snd (shr_fexp pr em (Z.pos m) e l)) = mag m e.
Proof.
  intros Hpr Hmag. unfold shr_fexp, shr, SpecFloat.fexp, SpecFloat.emin, mag in *. simpl Zdigits2.
  assert (H0 : shr_m (shr_record_of_loc (Z.pos m) l) = Z.pos m)
    by (destruct l as [|[]]; reflexivity).
  destruct (Z.max _ _ - e)%Z as [|p|p] eqn:E; cbn [fst snd].
  - exists m; auto.
  - destruct (iter_shr_1_pos p _ m H0) as (m' & H1 & D1); [lia|].
    exists m'; split; auto. lia.
  - exists m; auto.
Qed.

Lemma binary_round_aux_pos pr em m e l :
  (0 < pr)%Z -> (SpecFloat.emin pr em + pr <= mag m e)%Z ->
  sf_pos (binary_round_aux pr em false (Z.pos m) e l) = true.
Proof.
  intros Hpr Hmag. unfold binary_round_aux.
  destruct (shr_fexp_pos pr em m e l Hpr Hmag) as (m1 & H1 & E1).
  destruct (shr_fexp pr em (Z.pos m) e l) as [mrs' e']; simpl in H1, E1.
  rewrite H1.
  assert (exists m2, round_nearest_even (Z.pos m1) (loc_of_shr_record mrs') = Z.pos m2
                     /\ (m1 <= m2)%positive) as (m2 & -> & Hle).
  { pose proof (round_nearest_even_ge (Z.pos m1) (loc_of_shr_record mrs')) as Hge.
    destruct (round_nearest_even _ _) as [|q|q]; try lia. exists q; split; auto; lia. }
  pose proof (digits2_mono _ _ Hle) as Hd.
  destruct (shr_fexp_pos pr em m2 e' loc_Exact Hpr) as (m3 & H3 & _).
  { unfold mag in *. lia. }
  destruct (shr_fexp pr em (Z.pos m2) e' loc_Exact) as [mrs'' e'']; simpl in H3.
  rewrite H3. destruct (_ <=? _)%Z; reflexivity.
Qed.

Lemma binary_round_pos pr em m e :
  (0 < pr)%Z -> (SpecFloat.emin pr em + pr <= mag m e)%Z ->
  sf_pos (binary_round pr em false m e) = true.
Proof.
  intros Hpr Hmag. unfold binary_round.
  pose proof (shl_align_mag_any m e (SpecFloat.fexp pr em (Z.pos (digits2_pos m) + e))) as H.
  destruct (shl_align _ _ _) as [mz ez]; simpl in H.
  apply binary_round_aux_pos; auto. lia.
Qed.

Lemma SFadd_pos pr em x my ey :
  (0 < pr)%Z -> (SpecFloat.emin pr em + pr <= mag my ey)%Z ->
  sf_nonneg x = true ->
  sf_pos (SFadd pr em x (S754_finite false my ey)) = true.
Proof.
  intros Hpr Hmag.
  destruct x as [sx|sx| |sx mx ex]; simpl; try discriminate; auto.
  destruct sx; simpl; try discriminate. intros _.
  destruct (shl_align_mag my ey (Z.min ex ey)) as (b & Hb & Eb); [lia|].
  rewrite Hb; simpl.
  apply binary_round_pos; auto.
  assert (Hle : (b <= fst (shl_align mx ex (Z.min ex ey)) + b)%positive) by lia.
  apply digits2_mono in Hle. unfold mag in *. lia.
Qed.

Lemma add_pos a b my ey :
  Prim2SF b = S754_finite false my ey ->
  (SpecFloat.emin prec emax + prec <= mag my ey)%Z ->
  nonneg a = true -> PrimFloat.ltb 0 (PrimFloat.add a b) = true.
Proof.
  intros Hb Hmag. rewrite nonneg_spec, pos_spec, FloatAxioms.add_spec, Hb.
  apply SFadd_pos; auto. reflexivity.
Qed.


Lemma add_five_pos a : nonneg a = true -> PrimFloat.ltb 0 (PrimFloat.add a 5) = true.
Proof.
  apply (add_pos a 5 5629499534213120 (-50)); [reflexivity|]. vm_compute. discriminate.
Qed.

Lemma ltb_pos_nonneg a : PrimFloat.ltb 0 a = true -> nonneg a = true.
Proof.
  rewrite pos_spec, nonneg_spec. destruct (Prim2SF a); simpl; auto; discriminate.
Qed.

End FloatFacts.

(* ===================================================================== *)
(** * Facts about [sorted(..., reverse=True)] *)
(* ===================================================================== *)

Section SortFacts.
Context {A K : Type} (lt : K -> K -> bool) (key : A -> K).

Lemma insert_desc_perm x l : insert_desc lt key x l ≡ₚ x :: l.
Proof.
  induction l as [|y l IH]; simpl; [done|].
  destruct (lt (key x) (key y)); [|done].
  rewrite IH. apply Permutation_swap.
Qed.

Lemma sorted_reverse_perm l : sorted_reverse lt key l ≡ₚ l.
Proof.
  induction l as [|x l IH]; simpl; [done|].
  by rewrite insert_desc_perm, IH.
Qed.

Lemma sorted_reverse_length l : length (sorted_reverse lt key l) = length l.
Proof. by rewrite sorted_reverse_perm. Qed.

(** Sorting commutes with relabelling the items. *)
Lemma insert_desc_fmap {B} (f : B -> A) x l :
  insert_desc lt key (f x) (f <$> l) = f <$> insert_desc lt (key ∘ f) x l.
Proof.
  induction l as [|y l IH]; [done|].
  rewrite fmap_cons. cbn [insert_desc]. unfold compose at 1 2.
  destruct (lt (key (f x)) (key (f y))); [|done].
  by rewrite IH.
Qed.

Lemma sorted_reverse_fmap {B} (f : B -> A) l :
  sorted_reverse lt key (f <$> l) = f <$> sorted_reverse lt (key ∘ f) l.
Proof.
  induction l as [|x l IH]; [done|].
  rewrite fmap_cons. cbn [sorted_reverse].
  by rewrite IH, insert_desc_fmap.
Qed.

(** Sorting only looks at the keys. *)
Lemma sorted_reverse_ext (key' : A -> K) l :
  Forall (fun x => key x = key' x) l ->
  sorted_reverse lt key l = sorted_reverse lt key' l.
Proof.
  induction 1 as [|x l Hx Hl IH]; simpl; [done|]. rewrite <- IH.
  assert (Hs : Forall (fun x => key x = key' x) (sorted_reverse lt key l))
    by (by rewrite sorted_reverse_perm).
  clear IH. induction Hs as [|y s Hy Hs IHs]; simpl; [done|].
  by rewrite Hx, Hy, IHs.
Qed.

End SortFacts.

(** ** Stability *)

Section Stability.
Context {A K : Type} (lt : K -> K -> bool) (key : A -> K).







End Stability.

(** ** Order *)

(** On keys that [<] orders as a strict weak order the result is
    descending. *)
Section Descending.
Context {A K : Type} (lt : K -> K -> bool) (key : A -> K).
Context (good : K -> Prop).
Hypothesis lt_asym : forall a b, lt a b = true -> lt b a = false.
Hypothesis lt_false_trans : forall a b c,
  good b -> lt a b = false -> lt b c = false -> lt a c = false.

Lemma insert_desc_descending x s :
  Forall (good ∘ key) s ->
  StronglySorted (not_below lt key) s ->
  StronglySorted (not_below lt key) (insert_desc lt key x s).
Proof.
  induction s as [|y s IH]; simpl; intros Hg Hs.
  - repeat constructor.
  - apply Forall_cons in Hg as [Hgy Hg].
    pose proof Hs as Hs0.
    apply StronglySorted_cons in Hs as [Hy Hs].
    destruct (lt (key x) (key y)) eqn:E.
    + apply StronglySorted_cons. split; [|by apply IH].
      rewrite insert_desc_perm. constructor; [|done].
      by apply lt_asym.
    + apply StronglySorted_cons. split; [|done].
      constructor; [done|].
      eapply Forall_impl; [exact Hy|].
      intros z Hz. by apply (lt_false_trans _ (key y)).
Qed.

Lemma sorted_reverse_descending l :
  Forall (good ∘ key) l ->
  StronglySorted (not_below lt key) (sorted_reverse lt key l).
Proof.
  induction 1 as [|x l Hx Hl IH]; simpl; [constructor|].
  apply insert_desc_descending; [|done].
  by rewrite sorted_reverse_perm.
Qed.

End Descending.

Lemma StronglySorted_lookup {A} (R : A -> A -> Prop) l p q x y :
  StronglySorted R l -> p < q -> l !! p = Some x -> l !! q = Some y -> R x y.
Proof.
  intros Hs. revert p q. induction Hs as [|z s Hs IH Hz]; intros p q Hpq Hp Hq.
  - by rewrite lookup_nil in Hp.
  - destruct p as [|p], q as [|q]; simplify_eq/=; try lia.
    + rewrite Forall_forall in Hz. apply Hz. by eapply list_elem_of_lookup_2.
    + apply (IH p q); [lia|done..].
Qed.

(* ===================================================================== *)
(** * Facts about [dict] *)
(* ===================================================================== *)

Section DictFacts.
Context {V : Type}.
Implicit Types (d : dict V) (k : string) (v : V).


Lemma dict_get_None d k : dict_get d k = None <-> k ∉ keys d.
Proof.
  unfold keys. induction d as [|[k0 v0] d IH]; simpl.
  - split; [intros _; apply not_elem_of_nil|done].
  - rewrite not_elem_of_cons, <- IH.
    destruct (String.eqb_spec k0 k) as [->|Hne]; split.
    + discriminate.
    + by intros [? _].
    + intros Hd; split; [congruence|done].
    + by intros [_ ?].
Qed.

Lemma dict_set_fresh d k v : k ∉ keys d -> dict_set d k v = d ++ [(k, v)].
Proof.
  unfold keys. induction d as [|[k0 v0] d IH]; simpl; [done|].
  rewrite not_elem_of_cons. intros [Hne Hk].
  destruct (String.eqb_spec k0 k) as [->|]; [done|]. by rewrite IH.
Qed.

Lemma dict_mem_item d k : dict_mem d k = true -> exists v, dict_item d k = Ok v.
Proof. unfold dict_mem, dict_item. destruct (dict_get d k); [eauto|done]. Qed.

End DictFacts.

(* ===================================================================== *)
(** * Keyword scoring *)
(* ===================================================================== *)

Section KeywordScores.
Implicit Types (jd_lower phrase category : string) (scores : dict float).

(** On a table with distinct categories the first loop of [analyze] visits
    the categories in table order. *)
Lemma find_keywords_fold jd_lower (table : dict (list string)) (found : dict (list kw_data)) :
  NoDup (keys found ++ keys table) ->
  fold_left (fun found_keywords '(category, keywords) =>
               dict_set found_keywords category (found_in_category jd_lower keywords))
            table found
  = found ++ map (fun entry => (entry.1, found_in_category jd_lower entry.2)) table.
Proof.
  revert found. induction table as [|[c kws] table IH]; intros found Hnd; simpl.
  - by rewrite app_nil_r.
  - unfold keys in *. simpl in Hnd.
    rewrite dict_set_fresh.
    2:{ apply NoDup_app in Hnd as (_ & Hd & _). intros Hc. apply (Hd c Hc). left. }
    rewrite IH.
    + by rewrite <- app_assoc.
    + rewrite fmap_app. simpl. rewrite <- app_assoc. done.
Qed.

Lemma find_keywords_NoDup (self : JobDescriptionAnalyzer.t) jd_lower :
  NoDup (keys (keyword_table self)) ->
  find_keywords self jd_lower
  = map (fun entry => (entry.1, found_in_category jd_lower entry.2)) (keyword_table self).
Proof. intros Hnd. unfold find_keywords. by rewrite find_keywords_fold. Qed.




Lemma weight_of_finite category :
  exists m e, Prim2SF (weight_of category) = S754_finite false m e.
Proof.
  unfold weight_of, category_weights. cbn [dict_get].
  repeat (destruct (String.eqb _ category); [do 2 eexists; vm_compute; reflexivity|]).
  do 2 eexists; vm_compute; reflexivity.
Qed.

Lemma expected_score_nonneg table jd_lower phrase v :
  expected_score table jd_lower phrase = Some v -> nonneg v = true.
Proof.
  unfold expected_score. destruct (last_category _ _ _) as [c|]; [|done].
  intros [= <-]. destruct (weight_of_finite c) as (m & e & Hw).
  eapply FloatFacts.mul_nonneg; [exact Hw|]. apply FloatFacts.of_uint63_nonneg.
Qed.

Lemma analyze_text_Ok (self : JobDescriptionAnalyzer.t) text :
  dict_mem (keyword_table self) "industries" = true ->
  exists analysis,
    analyze_text self text = Ok analysis /\
    JobAnalysis.keywords analysis = find_keywords self (lower text) /\
    JobAnalysis.keyword_scores analysis
    = _calculate_keyword_scores (find_keywords self (lower text)).
Proof.
  intros Hmem. apply dict_mem_item in Hmem as [industries Hi].
  unfold analyze_text, _extract_company_info. rewrite Hi. simpl.
  eexists; split; [reflexivity|]. done.
Qed.

End KeywordScores.

(* ===================================================================== *)
(** * Ranking the experiences *)
(* ===================================================================== *)

Section Ranking.
Implicit Types (st : state) (objs : store) (refs : list loc) (r : loc)
  (exp : Experience.t) (keyword_scores : dict float).

(** The score depends on no field that ranking assigns. *)
Lemma experience_score_set keyword_scores exp score :
  experience_score keyword_scores (Experience.set_relevance_score exp score)
  = experience_score keyword_scores exp.
Proof. reflexivity. Qed.

Lemma rescore_rescore keyword_scores exp :
  rescore keyword_scores (rescore keyword_scores exp) = rescore keyword_scores exp.
Proof. reflexivity. Qed.

Lemma rescored_cons keyword_scores a refs objs :
  rescored keyword_scores (a :: refs) objs
  = rescored keyword_scores refs
      match objs !! a with
      | Some exp => <[a := rescore keyword_scores exp]> objs
      | None => objs
      end.
Proof. reflexivity. Qed.

Lemma rescored_lookup keyword_scores refs objs r :
  rescored keyword_scores refs objs !! r
  = if decide (r ∈ refs) then rescore keyword_scores <$> objs !! r else objs !! r.
Proof.
  revert objs. induction refs as [|a refs IH]; intros objs.
  - simpl. destruct (decide (r ∈ [])) as [Hin|]; [|done]. by apply elem_of_nil in Hin.
  - rewrite rescored_cons, IH. clear IH.
    set (objs1 := match objs !! a with
                  | Some exp => <[a := rescore keyword_scores exp]> objs
                  | None => objs
                  end).
    assert (Ha : objs1 !! a = rescore keyword_scores <$> objs !! a).
    { unfold objs1. destruct (objs !! a) as [e|] eqn:E.
      - by rewrite lookup_insert_eq.
      - by rewrite E. }
    assert (Hr : r ≠ a -> objs1 !! r = objs !! r).
    { intros Hne. unfold objs1. destruct (objs !! a); [|done].
      by rewrite lookup_insert_ne. }
    destruct (decide (r = a)) as [->|Hne].
    + rewrite Ha. destruct (decide (a ∈ a :: refs)) as [_|Hn]; [|by destruct Hn; left].
      case_decide; [|done].
      destruct (objs !! a); simpl; [|done]. by rewrite rescore_rescore.
    + rewrite Hr by done.
      destruct (decide (r ∈ refs)) as [Hin|Hin];
        destruct (decide (r ∈ a :: refs)) as [Hin'|Hin']; try done.
      * destruct Hin'. by right.
      * apply elem_of_cons in Hin' as [?|?]; done.
Qed.

Lemma rescored_allocated keyword_scores refs objs r :
  is_Some (rescored keyword_scores refs objs !! r) <-> is_Some (objs !! r).
Proof. rewrite rescored_lookup. case_decide; [|done]. by rewrite fmap_is_Some. Qed.

Lemma for_each_cons {A B} (x : A) xs (body : A -> M B) st :
  for_each (x :: xs) body st
  = match body x st with
    | (Ok y, st') =>
        match for_each xs body st' with
        | (Ok ys, st'') => (Ok (y :: ys), st'')
        | (Raise e, st'') => (Raise e, st'')
        end
    | (Raise e, st') => (Raise e, st')
    end.
Proof.
  cbn [for_each]. unfold bind. destruct (body x st) as [[y|e] st']; [|done].
  by destruct (for_each xs body st') as [[ys|e] st''].
Qed.

(** The scoring loop of [_score_experiences]. *)
Lemma scoring_loop_run keyword_scores refs st :
  Forall (fun r => is_Some (objects st !! r)) refs ->
  for_each refs (fun r =>
    exp <- load r ;;
    _ <- assign_relevance_score r (experience_score keyword_scores exp) ;;
    ret r) st
  = (Ok refs,
     mk_state (user_profile st) (analyzer st)
              (rescored keyword_scores refs (objects st))).
Proof.
  revert st. induction refs as [|a refs IH]; intros st Hall.
  - by destruct st.
  - apply Forall_cons in Hall as [[e He] Hall].
    set (body := fun r : loc => bind _ _).
    rewrite for_each_cons.
    assert (Hbody : body a st
                    = (Ok a, mk_state (user_profile st) (analyzer st)
                               (<[a := rescore keyword_scores e]> (objects st)))).
    { unfold body, bind, load. rewrite He.
      unfold assign_relevance_score. by rewrite He. }
    rewrite Hbody, IH.
    + cbn [objects user_profile analyzer]. by rewrite rescored_cons, He.
    + cbn [objects]. eapply Forall_impl; [exact Hall|].
      intros r Hr. cbv beta in *. by apply lookup_insert_is_Some'; right.
Qed.

(** Reading the sort keys. *)
Lemma key_loop_run refs st :
  Forall (fun r => is_Some (objects st !! r)) refs ->
  for_each refs (fun r => exp <- load r ;; ret (Experience.relevance_score exp, r)) st
  = (Ok (map (fun r => (from_option Experience.relevance_score 0%float (objects st !! r), r))
             refs),
     st).
Proof.
  induction 1 as [|a refs [e He] Hall IH].
  - done.
  - set (body := fun r : loc => bind _ _).
    rewrite for_each_cons.
    assert (Hbody : body a st = (Ok (Experience.relevance_score e, a), st)).
    { unfold body, bind, load. by rewrite He. }
    rewrite Hbody. subst body. rewrite IH. cbn [map]. by rewrite He.
Qed.

Lemma sorted_by_relevance_run refs st :
  Forall (fun r => is_Some (objects st !! r)) refs ->
  sorted_by_relevance refs st
  = (Ok (sorted_reverse PrimFloat.ltb
           (fun r => from_option Experience.relevance_score 0%float (objects st !! r))
           refs),
     st).
Proof.
  intros Hall. unfold sorted_by_relevance, bind. rewrite key_loop_run by done.
  unfold ret. f_equal. f_equal.
  change (map ?f refs) with (f <$> refs).
  rewrite (sorted_reverse_fmap PrimFloat.ltb fst).
  rewrite <- list_fmap_compose. apply list_fmap_id.
Qed.

(** What [_score_experiences] returns and the state it leaves. *)
Lemma score_experiences_run (jd_analysis : JobAnalysis.t) st :
  allocated st ->
  _score_experiences jd_analysis st
  = (Ok (sorted_reverse PrimFloat.ltb
           (score_at (JobAnalysis.keyword_scores jd_analysis) (objects st))
           (UserProfile.experiences (user_profile st))),
     mk_state (user_profile st) (analyzer st)
              (rescored (JobAnalysis.keyword_scores jd_analysis)
                        (UserProfile.experiences (user_profile st)) (objects st))).
Proof.
  intros Hall. unfold allocated in Hall.
  unfold _score_experiences. unfold bind at 1 2, gets at 1.
  rewrite scoring_loop_run by done.
  rewrite sorted_by_relevance_run.
  2:{ cbn [objects]. eapply Forall_impl; [exact Hall|].
      intros r Hr. by apply rescored_allocated. }
  f_equal. f_equal. cbn [objects]. apply sorted_reverse_ext.
  rewrite Forall_forall in Hall. apply Forall_forall. intros r Hr.
  rewrite rescored_lookup, decide_True by done.
  unfold score_at. destruct (Hall r Hr) as [e ->]. done.
Qed.

(** With non-negative keyword scores every experience score is
    non-negative, in particular not NaN. *)
Lemma experience_score_nonneg keyword_scores exp :
  all_nonneg keyword_scores -> nonneg (experience_score keyword_scores exp) = true.
Proof.
  intros Hnn. unfold experience_score.
  assert (Hsum : forall (items : dict float) acc,
    all_nonneg items ->
    nonneg acc = true ->
    nonneg (fold_left (fun score '(keyword, kw_score) =>
                         if contains keyword (exp_text exp)
                         then PrimFloat.add score kw_score else score)
                      items acc) = true).
  { unfold all_nonneg, values.
    induction items as [|[k v] items IH]; intros acc Hall Hacc; simpl; [done|].
    apply Forall_cons in Hall as [Hv Hall]. apply IH; [done|].
    destruct (contains k (exp_text exp)); [|done].
    by apply FloatFacts.add_nonneg. }
  destruct (any _ pm_titles).
  - apply FloatFacts.add_nonneg; [|done]. by apply Hsum.
  - by apply Hsum.
Qed.

End Ranking.

(* ===================================================================== *)
(** * Assembly *)
(* ===================================================================== *)

Section Assembly.
Implicit Types (st : state) (jd : option string) (focus : option (list string)).

(** [tailor_resume] step by step. *)
Lemma tailor_resume_run jd focus st :
  allocated st ->
  tailor_resume jd focus st
  = match analyze (analyzer st) jd with
    | Raise e => (Raise e, st)
    | Ok jd_analysis =>
        let st' := ranked_state (JobAnalysis.keyword_scores jd_analysis) st in
        match _generate_optimization_notes jd_analysis with
        | Raise e => (Raise e, st')
        | Ok notes => (Ok (assembled st jd_analysis notes), st')
        end
    end.
Proof.
  intros Hall. unfold tailor_resume.
  unfold bind at 1 2. unfold gets at 1, lift at 1.
  destruct (analyze (analyzer st) jd) as [a|e]; [|done].
  unfold bind at 1. rewrite score_experiences_run by done.
  fold (ranked_state (JobAnalysis.keyword_scores a) st).
  unfold bind, _optimize_summary, _prioritize_skills, bind, gets, ret, lift.
  by destruct (_generate_optimization_notes a).
Qed.

End Assembly.

(* ===================================================================== *)
(** * Properties of the analyzer *)
(* ===================================================================== *)

Lemma dict_set_values_Forall {V} (P : V -> Prop) (d : dict V) k v :
  Forall P (values d) -> P v -> Forall P (values (dict_set d k v)).
Proof.
  unfold values. induction d as [|[k0 v0] d IH]; simpl; intros Hd Hv.
  - by constructor.
  - apply Forall_cons in Hd as [H0 Hd].
    destruct (String.eqb k0 k); simpl; constructor; auto.
Qed.

Lemma calculate_keyword_scores_nonneg (found_keywords : dict (list kw_data)) :
  all_nonneg (_calculate_keyword_scores found_keywords).
Proof.
  unfold _calculate_keyword_scores.
  assert (Hinit : all_nonneg []) by constructor.
  revert Hinit. generalize (@nil (string * float)).
  induction found_keywords as [|[c kws] found IH]; intros scores Hs; simpl; [done|].
  apply IH. clear IH. revert scores Hs.
  induction kws as [|kw kws IH]; intros scores Hs; simpl; [done|].
  apply IH. apply dict_set_values_Forall; [done|].
  destruct (weight_of_finite c) as (m & e & Hw).
  eapply FloatFacts.mul_nonneg; [exact Hw|]. apply FloatFacts.of_uint63_nonneg.
Qed.



(** A phrase listed by two categories keeps the later category's score:
    two occurrences of [sql] weigh 2 x 0.8, not 2 x 1.0 + 2 x 0.8. *)
Example overlapping_categories_overwrite :
  JobAnalysis.keyword_scores
    <$> match analyze (init_with [("core_skills", ["sql"]); ("technical_skills", ["sql"]);
                                  ("industries", [])])
                      (Some "SQL and more sql") with
        | Ok analysis => Some analysis
        | Raise _ => None
        end
  = Some [("sql", 1.6%float)].
Proof. vm_compute. reflexivity. Qed.

(* ===================================================================== *)
(** * Properties of ranking *)
(* ===================================================================== *)

Lemma score_at_nonneg keyword_scores objs r :
  all_nonneg keyword_scores -> nonneg (score_at keyword_scores objs r) = true.
Proof.
  intros Hnn. unfold score_at. destruct (objs !! r); simpl; [|done].
  by apply experience_score_nonneg.
Qed.

Lemma rescored_relevance keyword_scores refs objs r :
  r ∈ refs -> is_Some (objs !! r) ->
  Experience.relevance_score <$> rescored keyword_scores refs objs !! r
  = Some (score_at keyword_scores objs r).
Proof.
  intros Hin [e He]. rewrite rescored_lookup.
  destruct (decide (r ∈ refs)); [|done].
  unfold score_at. by rewrite He.
Qed.



Lemma example_allocated : allocated Example.tailor.
Proof.
  unfold allocated. apply Forall_forall. intros r Hr.
  cbn in Hr. repeat (apply elem_of_cons in Hr as [->|Hr]; [by eexists|]).
  by apply elem_of_nil in Hr.
Qed.

Lemma long_allocated : allocated Cases.long_tailor.
Proof.
  unfold allocated. apply Forall_forall. intros r Hr.
  cbn in Hr. repeat (apply elem_of_cons in Hr as [->|Hr]; [by eexists|]).
  by apply elem_of_nil in Hr.
Qed.

Lemma example_ascii_experiences : ascii_experiences Example.tailor.
Proof. repeat constructor. Qed.

Lemma long_ascii_experiences : ascii_experiences Cases.long_tailor.
Proof. repeat constructor. Qed.

Lemma example_scores_nonneg : all_nonneg (JobAnalysis.keyword_scores Example.analysis).
Proof. vm_compute. repeat constructor. Qed.


(** The ranking of the seven experiences: the two managers, the two
    engineers, then the experiences that score nothing, each group in the
    order of the profile. *)
Example ranking_keeps_ties_in_order :
  (_score_experiences Example.analysis Cases.long_tailor).1 = Ok [2; 6; 1; 5; 4; 3; 7].
Proof. vm_compute. reflexivity. Qed.

(** C10.  Before truncation nothing is dropped, duplicated or invented:
    the ranked experiences are a permutation of the profile's experiences
    and the prioritized skills a permutation of the profile's skills, hence
    of the same lengths. *)
Theorem reordering_permutes (jd_analysis : JobAnalysis.t) (st : state) :
  allocated st ->
  exists ranked st' skills,
    _score_experiences jd_analysis st = (Ok ranked, st') /\
    ranked ≡ₚ UserProfile.experiences (user_profile st) /\
    length ranked = length (UserProfile.experiences (user_profile st)) /\
    _prioritize_skills jd_analysis st' = (Ok skills, st') /\
    skills ≡ₚ UserProfile.skills (user_profile st) /\
    length skills = length (UserProfile.skills (user_profile st)).
Proof.
  intros Hall. eexists _, _, _.
  split; [by apply score_experiences_run|].
  split; [apply sorted_reverse_perm|].
  split; [apply sorted_reverse_length|].
  split; [reflexivity|].
  cbn [user_profile]. unfold prioritized.
  assert (Hp : (sorted_reverse PrimFloat.ltb snd
                  (map (fun skill => (skill, skill_score (JobAnalysis.keyword_scores jd_analysis) skill))
                       (UserProfile.skills (user_profile st)))).*1
               ≡ₚ UserProfile.skills (user_profile st)).
  { rewrite sorted_reverse_perm.
    change (map ?f ?l) with (f <$> l). rewrite <- list_fmap_compose.
    by rewrite list_fmap_id. }
  split; [exact Hp|]. by rewrite Hp.
Qed.

Lemma reordering_permutes_witness :
  allocated Example.tailor /\
  exists ranked st' skills,
    _score_experiences Example.analysis Example.tailor = (Ok ranked, st') /\
    ranked ≡ₚ [10; 12; 11] /\
    length ranked = 3 /\
    _prioritize_skills Example.analysis st' = (Ok skills, st') /\
    skills ≡ₚ ["Excel"; "SQL Server"; "SQL"; "Writing"; "Python"] /\
    length skills = 5.
Proof.
  split; [exact example_allocated|].
  apply (reordering_permutes Example.analysis Example.tailor).
  exact example_allocated.
Defined.

(** ** Ranking without keyword scores *)

(** Keys on two levels: the items on the high level come first, each level
    in input order. *)
Section TwoLevels.
Context {A K : Type} (lt : K -> K -> bool) (key : A -> K) (hi : A -> bool).
Hypothesis lt_levels : forall x y, lt (key x) (key y) = negb (hi x) && hi y.

Lemma insert_desc_high x l : hi x = true -> insert_desc lt key x l = x :: l.
Proof. intros Hx. destruct l as [|y l]; simpl; [done|]. by rewrite lt_levels, Hx. Qed.

Lemma insert_desc_low x high low :
  hi x = false ->
  Forall (fun y => hi y = true) high -> Forall (fun y => hi y = false) low ->
  insert_desc lt key x (high ++ low) = high ++ x :: low.
Proof.
  intros Hx Hh Hl. induction Hh as [|y high Hy Hh IH]; simpl.
  - destruct Hl as [|y low Hy Hl]; simpl; [done|]. by rewrite lt_levels, Hx, Hy.
  - by rewrite lt_levels, Hx, Hy, IH.
Qed.

Lemma sorted_reverse_two_levels l :
  sorted_reverse lt key l
  = filter (fun x => hi x = true) l ++ filter (fun x => hi x = false) l.
Proof.
  induction l as [|x l IH]; simpl; [done|]. rewrite IH, !filter_cons.
  destruct (hi x) eqn:Hx.
  - rewrite decide_True, decide_False by done. by apply insert_desc_high.
  - rewrite decide_False, decide_True by done.
    apply insert_desc_low; [done|apply Forall_forall; intros y Hy; by apply list_elem_of_filter in Hy as [? _]..].
Qed.

End TwoLevels.

Lemma experience_score_no_keywords exp :
  experience_score [] exp = if has_pm_title exp then 5%float else 0%float.
Proof. unfold experience_score, has_pm_title. by destruct (any _ pm_titles). Qed.

Lemma score_at_no_keywords objs r :
  score_at [] objs r = if pm_at objs r then 5%float else 0%float.
Proof.
  unfold score_at, pm_at. destruct (objs !! r); simpl; [|done].
  apply experience_score_no_keywords.
Qed.

(** C3, as the code has it.  When the score map is empty, ranking raises
    nothing; the score of each experience is its title bonus alone, 5.0 if
    the lowercased title contains one of the three product-manager
    substrings and 0.0 otherwise; the experiences with the bonus come first
    and those without it follow, each group in input order; the input order
    is returned as it is when no title has the bonus. *)
Theorem ranking_with_empty_scores (jd_analysis : JobAnalysis.t) (st : state) :
  allocated st ->
  JobAnalysis.keyword_scores jd_analysis = [] ->
  let refs := UserProfile.experiences (user_profile st) in
  exists out st',
    _score_experiences jd_analysis st = (Ok out, st') /\
    out = filter (fun r => pm_at (objects st) r = true) refs
          ++ filter (fun r => pm_at (objects st) r = false) refs /\
    (forall r, r ∈ refs ->
       Experience.relevance_score <$> objects st' !! r
       = Some (if pm_at (objects st) r then 5%float else 0%float)) /\
    (Forall (fun r => pm_at (objects st) r = false) refs -> out = refs).
Proof.
  intros Hall Hempty refs.
  assert (Hout : sorted_reverse PrimFloat.ltb (score_at [] (objects st)) refs
                 = filter (fun r => pm_at (objects st) r = true) refs
                   ++ filter (fun r => pm_at (objects st) r = false) refs).
  { apply sorted_reverse_two_levels. intros x y. rewrite !score_at_no_keywords.
    by destruct (pm_at (objects st) x), (pm_at (objects st) y). }
  rewrite (score_experiences_run _ _ Hall), Hempty. fold refs.
  eexists _, _. split; [reflexivity|].
  split; [exact Hout|]. split.
  - intros r Hr. cbn [objects]. rewrite <- score_at_no_keywords.
    apply rescored_relevance; [done|].
    unfold allocated in Hall. rewrite Forall_forall in Hall. by apply Hall.
  - intros Hno. rewrite Hout. clear Hout Hall.
    induction Hno as [|r l Hr Hl IH]; [done|].
    rewrite !filter_cons, decide_False, decide_True by (done || congruence).
    rewrite <- IH at 3.
    assert (Hnil : filter (fun r => pm_at (objects st) r = true) l = []).
    { clear IH. induction Hl as [|r' l' Hr' Hl' IH']; [done|].
      rewrite filter_cons, decide_False by congruence. done. }
    by rewrite Hnil.
Qed.

Lemma ranking_with_empty_scores_witness :
  let refs := [10; 12; 11] in
  allocated Example.tailor /\
  JobAnalysis.keyword_scores Example.no_keywords = [] /\
  exists out st',
    _score_experiences Example.no_keywords Example.tailor = (Ok out, st') /\
    out = filter (fun r => pm_at Example.heap r = true) refs
          ++ filter (fun r => pm_at Example.heap r = false) refs /\
    (forall r, r ∈ refs ->
       Experience.relevance_score <$> objects st' !! r
       = Some (if pm_at Example.heap r then 5%float else 0%float)) /\
    (Forall (fun r => pm_at Example.heap r = false) refs -> out = refs).
Proof.
  split; [exact example_allocated|]. split; [reflexivity|].
  apply (ranking_with_empty_scores Example.no_keywords Example.tailor).
  - exact example_allocated.
  - reflexivity.
Defined.

(** C3, as the specification words it, fails: with a keyword table that has
    no phrase at all the score map is empty, yet the experience titled
    "Product Manager" scores 5.0 and moves from the last place to the
    first. *)
Lemma empty_table_ranking_counterexample :
  exists resume st',
    tailor_resume (Some Example.job_text) None Example.bare_tailor = (Ok resume, st') /\
    JobAnalysis.keyword_scores (TailoredResume.job_analysis resume) = [] /\
    UserProfile.experiences Example.profile = [10; 12; 11] /\
    TailoredResume.experiences resume = [11; 10; 12] /\
    Experience.relevance_score <$> objects st' !! 11 = Some 5%float.
Proof. vm_compute. eexists _, _. repeat split. Qed.

(* ===================================================================== *)
(** * Properties of [analyze] on its boundary inputs *)
(* ===================================================================== *)

(** C4, as the specification words it, fails on the null input: [None]
    reaches [job_description.lower()] and the call raises. *)
Lemma analyze_null_counterexample :
  analyze JobDescriptionAnalyzer.__init__ None = Raise AttributeError.
Proof. reflexivity. Qed.

(** C4, as the code has it.  On every string the shipped analyzer returns;
    on the empty string the analysis has no keyword in any category, an
    empty score map, no requirement, a company info with empty industry,
    size and stage and no culture entry, and a summary that reports zero
    keywords; the null input is outside the declared type and is rejected
    with [AttributeError]. *)
Theorem analyze_returns_on_text :
  (forall text, exists analysis,
      analyze JobDescriptionAnalyzer.__init__ (Some text) = Ok analysis) /\
  analyze JobDescriptionAnalyzer.__init__ (Some "")
  = Ok (JobAnalysis.mk
          [ ("core_skills", []); ("technical_skills", []);
            ("soft_skills", []); ("industries", []) ]
          []
          []
          (CompanyInfo.mk "" "" "" [])
          "Found 0 relevant PM keywords. Top focus areas: core_skills, technical_skills, soft_skills. Identified 0 key requirements.") /\
  analyze JobDescriptionAnalyzer.__init__ None = Raise AttributeError.
Proof.
  split; [|split].
  - intros text.
    destruct (analyze_text_Ok JobDescriptionAnalyzer.__init__ text eq_refl)
      as (a & Ha & _).
    by exists a.
  - vm_compute. reflexivity.
  - reflexivity.
Qed.

(* ===================================================================== *)
(** * Properties of [tailor_resume] *)
(* ===================================================================== *)

Section TailorFacts.
Implicit Types (st : state) (objs : store) (r : loc).

Lemma optimization_notes_Ok (jd_analysis : JobAnalysis.t) :
  JobAnalysis.keywords jd_analysis <> [] ->
  exists notes, _generate_optimization_notes jd_analysis = Ok notes.
Proof.
  unfold _generate_optimization_notes.
  destruct (JobAnalysis.keywords jd_analysis) as [|x l]; [done|]. intros _.
  simpl. eauto.
Qed.

(** The shipped analyzer returns on every text, and its analysis can be
    annotated. *)
Lemma shipped_analysis_Ok text :
  exists jd_analysis notes,
    analyze JobDescriptionAnalyzer.__init__ (Some text) = Ok jd_analysis /\
    _generate_optimization_notes jd_analysis = Ok notes.
Proof.
  destruct (analyze_text_Ok JobDescriptionAnalyzer.__init__ text eq_refl)
    as (a & Ha & Hk & _).
  destruct (optimization_notes_Ok a) as [notes Hn].
  - rewrite Hk, find_keywords_NoDup; [discriminate|].
    apply (bool_decide_unpack _). vm_compute. exact I.
  - by exists a, notes.
Qed.

Lemma forget_rescore keyword_scores exp :
  forget_score (rescore keyword_scores exp) = forget_score exp.
Proof. reflexivity. Qed.

Lemma rescore_forget keyword_scores exp exp' :
  forget_score exp = forget_score exp' ->
  rescore keyword_scores exp = rescore keyword_scores exp'.
Proof.
  destruct exp, exp'. unfold forget_score, rescore, experience_score, exp_text,
    Experience.set_relevance_score. simpl. by intros [= -> -> -> -> ->].
Qed.

Lemma experience_score_forget keyword_scores exp exp' :
  forget_score exp = forget_score exp' ->
  experience_score keyword_scores exp = experience_score keyword_scores exp'.
Proof.
  intros H. apply (rescore_forget keyword_scores) in H.
  by apply (f_equal Experience.relevance_score) in H.
Qed.

(** Ranking changes no field other than the relevance score and neither
    creates nor removes an object. *)
Lemma rescored_forget keyword_scores refs objs r :
  forget_score <$> rescored keyword_scores refs objs !! r = forget_score <$> objs !! r.
Proof.
  rewrite rescored_lookup. destruct (decide (r ∈ refs)); [|done].
  by destruct (objs !! r).
Qed.

Lemma same_but_scores_lookup objs objs' r :
  same_but_scores objs objs' ->
  forget_score <$> objs !! r = forget_score <$> objs' !! r.
Proof.
  intros H. apply (f_equal (fun m : store => m !! r)) in H.
  by rewrite !lookup_fmap in H.
Qed.

Lemma score_at_forget keyword_scores objs objs' r :
  forget_score <$> objs !! r = forget_score <$> objs' !! r ->
  score_at keyword_scores objs r = score_at keyword_scores objs' r.
Proof.
  unfold score_at.
  destruct (objs !! r) as [e|], (objs' !! r) as [e'|]; intros H;
    cbn [fmap option_fmap option_map] in H; try discriminate H; [|done].
  assert (H' : forget_score e = forget_score e') by congruence.
  cbn [from_option]. by apply experience_score_forget.
Qed.

Lemma rescored_same keyword_scores refs objs objs' r :
  r ∈ refs ->
  forget_score <$> objs !! r = forget_score <$> objs' !! r ->
  rescored keyword_scores refs objs !! r = rescored keyword_scores refs objs' !! r.
Proof.
  intros Hin. rewrite !rescored_lookup. destruct (decide (r ∈ refs)) as [_|]; [|done].
  destruct (objs !! r) as [x|], (objs' !! r) as [x'|]; intros H;
    cbn [fmap option_fmap option_map] in H; try discriminate H; [|done].
  assert (H' : forget_score x = forget_score x') by congruence.
  cbn [fmap option_fmap option_map]. f_equal.
  by apply rescore_forget.
Qed.

End TailorFacts.

(** C5.  For every profile and job text the tailored resume is produced and
    holds exactly min(5, number of profile experiences) experiences and
    min(15, number of profile skills) skills. *)
Theorem tailored_resume_sizes
    (profile : UserProfile.t) (objs : store) (text : string)
    (focus_areas : option (list string)) :
  allocated (ResumeTailor.__init__ profile objs) ->
  exists resume st',
    tailor_resume (Some text) focus_areas (ResumeTailor.__init__ profile objs)
    = (Ok resume, st') /\
    length (TailoredResume.experiences resume)
    = min 5 (length (UserProfile.experiences profile)) /\
    length (TailoredResume.skills resume)
    = min 15 (length (UserProfile.skills profile)).
Proof.
  intros Hall. rewrite tailor_resume_run by done.
  destruct (shipped_analysis_Ok text) as (a & notes & Ha & Hn).
  cbn [analyzer ResumeTailor.__init__]. rewrite Ha. cbv zeta. rewrite Hn.
  eexists _, _. split; [reflexivity|].
  cbn [assembled TailoredResume.experiences TailoredResume.skills
       user_profile objects ResumeTailor.__init__].
  rewrite !length_take, sorted_reverse_length. split; [done|].
  unfold prioritized. by rewrite length_fmap, sorted_reverse_length, length_map.
Qed.

Lemma tailored_resume_sizes_witness :
  allocated Example.tailor /\
  exists resume st',
    tailor_resume (Some Example.job_text) None Example.tailor = (Ok resume, st') /\
    length (TailoredResume.experiences resume) = 3 /\
    length (TailoredResume.skills resume) = 5.
Proof.
  split; [exact example_allocated|].
  apply (tailored_resume_sizes Example.profile Example.heap Example.job_text None).
  exact example_allocated.
Defined.

(** C8.  [focus_areas] never reaches the output: whatever two values are
    passed, absent included, the optimized summary is the same, and so are
    the outcome of [tailor_resume] and the state it leaves. *)
Theorem focus_areas_ignored
    (jd_analysis : JobAnalysis.t) (job_description : option string)
    (focus_areas focus_areas' : option (list string)) (st : state) :
  _optimize_summary jd_analysis focus_areas st
  = _optimize_summary jd_analysis focus_areas' st /\
  tailor_resume job_description focus_areas st
  = tailor_resume job_description focus_areas' st.
Proof. split; reflexivity. Qed.



(** C6.  A second call with the same job text and focus areas, made after
    the relevance scores of the store were reset to any values whatever,
    has the outcome of the first call, and the tailored resume it returns
    has the same content, experiences dereferenced. *)
Theorem tailoring_is_idempotent
    (job_description : option string) (focus_areas : option (list string))
    (st : state) (reset : store) :
  allocated st ->
  same_but_scores (objects (tailor_resume job_description focus_areas st).2) reset ->
  let first := tailor_resume job_description focus_areas st in
  let second :=
    tailor_resume job_description focus_areas
      (mk_state (user_profile first.2) (analyzer first.2) reset) in
  second.1 = first.1 /\
  forall resume, first.1 = Ok resume -> content second.2 resume = content first.2 resume.
Proof.
  intros Hall. cbv zeta.
  rewrite (tailor_resume_run job_description focus_areas st) by done.
  set (refs := UserProfile.experiences (user_profile st)).
  assert (Hsame : forall a,
    same_but_scores (objects (ranked_state (JobAnalysis.keyword_scores a) st)) reset ->
    forall r, forget_score <$> reset !! r = forget_score <$> objects st !! r).
  { intros a Hr r. cbn [ranked_state objects] in Hr.
    rewrite <- (same_but_scores_lookup _ _ r Hr). apply rescored_forget. }
  assert (Halloc : forall st0,
    user_profile st0 = user_profile st ->
    (forall r, forget_score <$> objects st0 !! r = forget_score <$> objects st !! r) ->
    allocated st0).
  { intros st0 Hp Ho. unfold allocated in *. rewrite Hp.
    eapply Forall_impl; [exact Hall|]. intros r [e He]. cbv beta.
    specialize (Ho r). rewrite He in Ho. destruct (objects st0 !! r); [eauto|done]. }
  destruct (analyze (analyzer st) job_description) as [a|e] eqn:Ea; cbn [fst snd].
  - intros Hreset.
    assert (Hr : forall r, forget_score <$> reset !! r = forget_score <$> objects st !! r).
    { destruct (_generate_optimization_notes a); by eapply Hsame. }
    clear Hsame.
    assert (Hsorted :
      sorted_reverse PrimFloat.ltb (score_at (JobAnalysis.keyword_scores a) reset) refs
      = sorted_reverse PrimFloat.ltb (score_at (JobAnalysis.keyword_scores a) (objects st)) refs).
    { apply sorted_reverse_ext, Forall_forall. intros r _. by apply score_at_forget. }
    destruct (_generate_optimization_notes a) as [notes|e] eqn:En; cbn [fst snd] in *.
    + rewrite tailor_resume_run by (by apply Halloc).
      cbn [analyzer user_profile objects ranked_state]. rewrite Ea. cbv zeta. rewrite En.
      cbn [fst snd]. unfold assembled. cbn [user_profile objects]. fold refs.
      rewrite Hsorted. split; [done|].
      intros resume [= <-]. unfold content.
      cbn [TailoredResume.experiences objects ranked_state user_profile]. fold refs.
      f_equal. change (map ?f ?l) with (f <$> l).
      apply Forall_fmap_ext, Forall_forall. intros r Hin.
      apply rescored_same; [|done].
      apply subseteq_take in Hin. by rewrite sorted_reverse_perm in Hin.
    + rewrite tailor_resume_run by (by apply Halloc).
      cbn [analyzer user_profile objects ranked_state]. rewrite Ea. cbv zeta. rewrite En.
      by split.
  - intros Hreset. rewrite tailor_resume_run.
    + cbn [analyzer]. rewrite Ea. by split.
    + apply Halloc; [done|]. intros r. cbn [objects].
      by rewrite (same_but_scores_lookup _ _ r Hreset).
Qed.

Lemma tailoring_is_idempotent_witness :
  let first := tailor_resume (Some Example.job_text) None Example.tailor in
  let second :=
    tailor_resume (Some Example.job_text) None
      (mk_state (user_profile first.2) (analyzer first.2) Example.reset_store) in
  allocated Example.tailor /\
  same_but_scores (objects first.2) Example.reset_store /\
  second.1 = first.1 /\
  forall resume, first.1 = Ok resume -> content second.2 resume = content first.2 resume.
Proof.
  assert (Hreset : same_but_scores
                     (objects (tailor_resume (Some Example.job_text) None Example.tailor).2)
                     Example.reset_store)
    by (vm_compute; reflexivity).
  split; [exact example_allocated|]. split; [exact Hreset|].
  apply (tailoring_is_idempotent (Some Example.job_text) None Example.tailor
           Example.reset_store).
  - exact example_allocated.
  - exact Hreset.
Defined.

(* ===================================================================== *)
(** * Properties of skill prioritization *)
(* ===================================================================== *)

Lemma dict_get_values_Forall {V} (P : V -> Prop) (d : dict V) k v :
  Forall P (values d) -> dict_get d k = Some v -> P v.
Proof.
  unfold values. induction d as [|[k0 v0] d IH]; simpl; [done|].
  intros [H0 Hd]%Forall_cons. destruct (String.eqb k0 k); [|by apply IH].
  by intros [= <-].
Qed.

Lemma skill_score_get keyword_scores skill :
  skill_score keyword_scores skill
  = match dict_get keyword_scores (lower skill) with
    | Some base => PrimFloat.add base 2%float
    | None => 0%float
    end.
Proof. unfold skill_score, dict_mem. by destruct (dict_get _ _). Qed.

Lemma skill_score_nonneg keyword_scores skill :
  all_nonneg keyword_scores -> nonneg (skill_score keyword_scores skill) = true.
Proof.
  intros Hnn. rewrite skill_score_get.
  destruct (dict_get keyword_scores (lower skill)) as [base|] eqn:E; [|done].
  apply FloatFacts.add_nonneg; [|done].
  by apply (dict_get_values_Forall _ _ _ _ Hnn E).
Qed.




Lemma example_ascii_skills : ascii_skills Example.tailor.
Proof. repeat constructor. Qed.


(** The scenario of the specification: with [sql] found once in the job
    text, the skill "SQL" scores 0.8 + 2.0 and precedes "SQL Server", which
    only contains the keyword and scores nothing. *)
Example sql_precedes_sql_server :
  skill_score (JobAnalysis.keyword_scores Example.analysis) "SQL"
  = PrimFloat.add 0.8%float 2%float /\
  skill_score (JobAnalysis.keyword_scores Example.analysis) "SQL Server" = 0%float /\
  (_prioritize_skills Example.analysis Example.tailor).1
  = Ok ["SQL"; "Python"; "Excel"; "SQL Server"; "Writing"].
Proof. vm_compute. repeat split. Qed.

(* ===================================================================== *)
(** * Facts about [str] *)
(* ===================================================================== *)

Section StrFacts.
Implicit Types (s t sub : string) (c : ascii).

Lemma append_cons c s t : String c s +:+ t = String c (s +:+ t).
Proof. reflexivity. Qed.

Lemma append_nil_r s : s +:+ "" = s.
Proof. induction s as [|c s IH]; [done|]. by rewrite append_cons, IH. Qed.

Lemma append_assoc s t u : (s +:+ t) +:+ u = s +:+ (t +:+ u).
Proof. induction s as [|c s IH]; [done|]. by rewrite !append_cons, IH. Qed.

Lemma lower_char_idemp c : lower_char (lower_char c) = lower_char c.
Proof.
  destruct c as [[] [] [] [] [] [] [] []]; reflexivity.
Qed.

Lemma lower_idemp s : lower (lower s) = lower s.
Proof.
  induction s as [|c s IH]; simpl; [done|]. by rewrite lower_char_idemp, IH.
Qed.

(** [sub in s] holds exactly when [s.count(sub)] is positive. *)
Lemma count_from_pos sub s skip :
  0 < count_from sub s skip -> contains sub s = true.
Proof.
  revert skip. induction s as [|c s IH]; intros skip; simpl.
  - destruct skip; [|lia]. destruct sub; simpl; [done|lia].
  - destruct skip as [|k].
    + destruct (startswith sub (String c s)) eqn:E; [done|].
      intros H. apply IH in H. by rewrite H, orb_true_r.
    + intros H. apply IH in H. by rewrite H, orb_true_r.
Qed.

Lemma contains_count_from sub s :
  contains sub s = true -> 0 < count_from sub s 0.
Proof.
  induction s as [|c s IH]; simpl.
  - rewrite orb_false_r. destruct (startswith sub ""); [lia|done].
  - destruct (startswith sub (String c s)) eqn:E; [lia|]. simpl. exact IH.
Qed.

Lemma contains_iff_count sub s : contains sub s = true <-> 1 <= count s sub.
Proof.
  unfold count. split; [apply contains_count_from|apply count_from_pos].
Qed.

Lemma rstrip_idemp s : rstrip (rstrip s) = rstrip s.
Proof.
  induction s as [|c s IH]; simpl; [done|].
  destruct (rstrip s) as [|c' r] eqn:E.
  - destruct (is_space c) eqn:Ec; simpl; [done|]. by rewrite Ec.
  - change (rstrip (String c (String c' r)))
      with (match rstrip (String c' r) with
            | "" => if is_space c then "" else String c ""
            | String a r0 => String c (String a r0)
            end).
    by rewrite IH.
Qed.

Lemma lstrip_head s c t : lstrip s = String c t -> is_space c = false.
Proof.
  induction s as [|c0 s IH]; simpl; [done|].
  destruct (is_space c0) eqn:E; [exact IH|]. by intros [= <- <-].
Qed.

Lemma rstrip_head c t : is_space c = false -> exists t', rstrip (String c t) = String c t'.
Proof.
  intros Hc. simpl. destruct (rstrip t); [|eauto]. rewrite Hc. eauto.
Qed.

(** [strip] leaves nothing to strip. *)
Lemma strip_idemp s : strip (strip s) = strip s.
Proof.
  unfold strip. destruct (lstrip s) as [|c t] eqn:E; [done|].
  apply lstrip_head in E.
  destruct (rstrip_head c t E) as [t' Ht]. rewrite Ht.
  cbn [lstrip]. rewrite E, <- Ht. apply rstrip_idemp.
Qed.

End StrFacts.

(* ===================================================================== *)
(** * More about the analyzer *)
(* ===================================================================== *)

Section FoundKeywords.
Implicit Types (jd_lower category : string) (listed : list string)
  (found : list kw_data).

Lemma found_in_category_cons jd_lower k listed :
  found_in_category jd_lower (k :: listed)
  = (if contains k jd_lower then [mk_kw k (count jd_lower k)] else [])
    ++ found_in_category jd_lower listed.
Proof. reflexivity. Qed.

(** The findings of one category: the listed keywords that occur, in table
    order, each with its count, which is positive. *)
Lemma found_in_category_spec jd_lower listed :
  keyword <$> found_in_category jd_lower listed
  = filter (fun k => contains k jd_lower = true) listed /\
  Forall (fun kw => kw_count kw = count jd_lower (keyword kw) /\ 1 <= kw_count kw)
         (found_in_category jd_lower listed).
Proof.
  induction listed as [|k listed [IH1 IH2]]; [by split|].
  rewrite found_in_category_cons, filter_cons.
  destruct (contains k jd_lower) eqn:E.
  - rewrite decide_True by done. split.
    + cbn. by rewrite IH1.
    + constructor; [|done]. cbn. split; [done|]. by apply contains_iff_count.
  - rewrite decide_False by done. by split.
Qed.

Lemma dict_get_map_values {V W} (g : string -> V -> W) (d : dict V) k :
  dict_get (map (fun entry => (entry.1, g entry.1 entry.2)) d) k
  = g k <$> dict_get d k.
Proof.
  induction d as [|[k0 v0] d IH]; simpl; [done|].
  destruct (String.eqb_spec k0 k) as [->|]; [done|exact IH].
Qed.

Lemma keys_map_values {V W} (g : V -> W) (d : dict V) :
  keys (map (fun entry => (entry.1, g entry.2)) d) = keys d.
Proof. unfold keys. induction d as [|[k v] d IH]; simpl; [done|]. by f_equal. Qed.

End FoundKeywords.

(** X1.  On a table with distinct categories that has the industries
    category, the analysis of an ASCII text lists every category of the
    table, in table order, found or not; the findings of a category are
    exactly its keywords that occur in the lowercased text, in table order;
    and each finding carries the occurrence count, which is at least one. *)
Theorem found_keywords_are_the_occurring_ones
    (self : JobDescriptionAnalyzer.t) (text : string) :
  NoDup (keys (keyword_table self)) ->
  dict_mem (keyword_table self) "industries" = true ->
  isascii text = true ->
  exists analysis,
    analyze self (Some text) = Ok analysis /\
    keys (JobAnalysis.keywords analysis) = keys (keyword_table self) /\
    forall category listed,
      dict_get (keyword_table self) category = Some listed ->
      exists found,
        dict_get (JobAnalysis.keywords analysis) category = Some found /\
        keyword <$> found = filter (fun k => contains k (lower text) = true) listed /\
        Forall (fun kw => kw_count kw = count (lower text) (keyword kw) /\
                          1 <= kw_count kw) found.
Proof.
  intros Hnd Hmem _.
  destruct (analyze_text_Ok self text Hmem) as (a & Ha & Hk & _).
  exists a. split; [exact Ha|]. rewrite Hk, find_keywords_NoDup by done.
  split; [apply (keys_map_values (found_in_category (lower text)))|].
  intros category listed Hget.
  exists (found_in_category (lower text) listed). split.
  - rewrite (dict_get_map_values (fun _ => found_in_category (lower text))).
    by rewrite Hget.
  - apply found_in_category_spec.
Qed.

Lemma found_keywords_are_the_occurring_ones_witness :
  NoDup (keys PM_KEYWORDS) /\
  dict_mem PM_KEYWORDS "industries" = true /\
  isascii Example.job_text = true /\
  exists analysis,
    analyze JobDescriptionAnalyzer.__init__ (Some Example.job_text) = Ok analysis /\
    keys (JobAnalysis.keywords analysis) = keys PM_KEYWORDS /\
    forall category listed,
      dict_get PM_KEYWORDS category = Some listed ->
      exists found,
        dict_get (JobAnalysis.keywords analysis) category = Some found /\
        keyword <$> found
        = filter (fun k => contains k (lower Example.job_text) = true) listed /\
        Forall (fun kw => kw_count kw = count (lower Example.job_text) (keyword kw) /\
                          1 <= kw_count kw) found.
Proof.
  assert (Hnd : NoDup (keys PM_KEYWORDS))
    by (apply (bool_decide_unpack _); vm_compute; exact I).
  split; [exact Hnd|]. split; [reflexivity|]. split; [reflexivity|].
  apply (found_keywords_are_the_occurring_ones
           JobDescriptionAnalyzer.__init__ Example.job_text).
  - exact Hnd.
  - reflexivity.
  - reflexivity.
Defined.

Section ScoreMapKeys.
Implicit Types (scores : dict float) (k : string).

Lemma dict_set_keys {V} (d : dict V) k v :
  keys (dict_set d k v) = keys d ++ (if decide (k ∈ keys d) then [] else [k]).
Proof.
  unfold keys. induction d as [|[k0 v0] d IH].
  - cbn. destruct (decide (k ∈ [])) as [Hin|]; [|done]. by apply elem_of_nil in Hin.
  - cbn [dict_set]. destruct (String.eqb_spec k0 k) as [->|Hne].
    + rewrite !fmap_cons. cbn [fst].
      destruct (decide (k ∈ k :: d.*1)) as [_|Hn]; [by rewrite app_nil_r|].
      destruct Hn. left.
    + rewrite !fmap_cons, IH. cbn [fst app]. f_equal. f_equal.
      destruct (decide (k ∈ d.*1)) as [Hin|Hin];
        destruct (decide (k ∈ k0 :: d.*1)) as [Hin'|Hin']; try done.
      * destruct Hin'. by right.
      * by apply elem_of_cons in Hin' as [?|?].
Qed.

Lemma dict_set_keys_NoDup {V} (d : dict V) k v :
  NoDup (keys d) -> NoDup (keys (dict_set d k v)).
Proof.
  intros Hnd. rewrite dict_set_keys. destruct (decide (k ∈ keys d)).
  - by rewrite app_nil_r.
  - apply NoDup_app. split; [done|]. split; [|apply NoDup_singleton].
    intros x Hx ->%list_elem_of_singleton. done.
Qed.

Lemma dict_set_length {V} (d : dict V) k v :
  length (dict_set d k v) <= S (length d).
Proof.
  rewrite <- !(length_fmap fst). change (d.*1) with (keys d).
  change ((dict_set d k v).*1) with (keys (dict_set d k v)).
  rewrite dict_set_keys, length_app. destruct (decide _); simpl; lia.
Qed.

Lemma dict_set_elem_of_keys {V} (d : dict V) k v k' :
  k' ∈ keys (dict_set d k v) <-> k' ∈ keys d \/ k' = k.
Proof.
  rewrite dict_set_keys, elem_of_app. destruct (decide (k ∈ keys d)).
  - rewrite elem_of_nil. split; [tauto|]. intros [?|Heq]; [tauto|]. subst. tauto.
  - by rewrite list_elem_of_singleton.
Qed.

Lemma sum_lengths_from {A} (ls : list (list A)) n :
  fold_left (fun total kws => total + length kws) ls n
  = n + fold_left (fun total kws => total + length kws) ls 0.
Proof.
  revert n. induction ls as [|x ls IH]; intros n; cbn [fold_left]; [lia|].
  rewrite (IH (n + length x)), (IH (0 + length x)). lia.
Qed.

Lemma total_keywords_cons c kws (found_keywords : dict (list kw_data)) :
  total_keywords ((c, kws) :: found_keywords)
  = length kws + total_keywords found_keywords.
Proof.
  unfold total_keywords, values. rewrite fmap_cons. cbn [fold_left snd].
  by rewrite sum_lengths_from.
Qed.

(** One category's contribution to the score map. *)
Lemma category_scores_keys (weight : float) (kws : list kw_data) scores :
  let scores' :=
    fold_left (fun scores kw =>
                 dict_set scores (keyword kw)
                          (PrimFloat.mul (float_of_int (kw_count kw)) weight))
              kws scores in
  (NoDup (keys scores) -> NoDup (keys scores')) /\
  length scores' <= length scores + length kws /\
  (forall k, k ∈ keys scores' <-> k ∈ keys scores \/ exists kw, kw ∈ kws /\ keyword kw = k).
Proof.
  revert scores. induction kws as [|kw kws IH]; intros scores; cbn [fold_left].
  - split; [done|]. split; [simpl; lia|]. intros k. split; [tauto|].
    intros [?|(kw & Hin & _)]; [done|]. by apply elem_of_nil in Hin.
  - destruct (IH (dict_set scores (keyword kw)
                    (PrimFloat.mul (float_of_int (kw_count kw)) weight)))
      as (H1 & H2 & H3).
    split; [|split].
    + intros Hnd. by apply H1, dict_set_keys_NoDup.
    + pose proof (dict_set_length scores (keyword kw)
                    (PrimFloat.mul (float_of_int (kw_count kw)) weight)).
      simpl. lia.
    + intros k. rewrite H3, dict_set_elem_of_keys. split.
      * intros [[?|Heq]|(kw' & Hin & Hk)]; [by left|right..].
        -- exists kw. split; [left|done].
        -- exists kw'. split; [by right|done].
      * intros [?|(kw' & Hin & Hk)]; [by left; left|].
        apply elem_of_cons in Hin as [Heq|Hin].
        -- subst kw'. left. by right.
        -- right. by exists kw'.
Qed.

End ScoreMapKeys.

(** X2.  The score map is a dict: its keys are distinct.  They are exactly
    the found keywords, and the map has no more entries than the number of
    found keywords the summary reports, a keyword found in two categories
    being counted twice there and scored once. *)
Theorem keyword_scores_keys_are_found_keywords (found_keywords : dict (list kw_data)) :
  let scores := _calculate_keyword_scores found_keywords in
  NoDup (keys scores) /\
  length scores <= total_keywords found_keywords /\
  (forall k, k ∈ keys scores <->
             exists entry kw, entry ∈ found_keywords /\ kw ∈ entry.2 /\ keyword kw = k).
Proof.
  unfold _calculate_keyword_scores.
  assert (Hgen : forall (scores : dict float),
    let scores' :=
      fold_left (fun scores '(category, keywords) =>
                   let weight := weight_of category in
                   fold_left (fun scores kw =>
                                dict_set scores (keyword kw)
                                         (PrimFloat.mul (float_of_int (kw_count kw)) weight))
                             keywords scores)
                found_keywords scores in
    (NoDup (keys scores) -> NoDup (keys scores')) /\
    length scores' <= length scores + total_keywords found_keywords /\
    (forall k, k ∈ keys scores' <->
               k ∈ keys scores \/
               exists entry kw, entry ∈ found_keywords /\ kw ∈ entry.2 /\ keyword kw = k)).
  { induction found_keywords as [|[c kws] found IH]; intros scores; cbn [fold_left].
    - split; [done|]. split; [unfold total_keywords; simpl; lia|].
      intros k. split; [tauto|]. intros [?|(e & kw & Hin & _)]; [done|].
      by apply elem_of_nil in Hin.
    - destruct (category_scores_keys (weight_of c) kws scores) as (A1 & A2 & A3).
      cbv zeta in A1, A2, A3.
      set (scores1 := fold_left _ kws scores) in *.
      destruct (IH scores1) as (B1 & B2 & B3).
      split; [|split].
      + intros Hnd. by apply B1, A1.
      + rewrite total_keywords_cons.
        eapply Nat.le_trans; [exact B2|]. lia.
      + intros k. etrans; [exact (B3 k)|]. rewrite A3. split.
        * intros [[?|(kw & Hin & Hk)]|(e & kw & He & Hin & Hk)].
          -- by left.
          -- right. exists (c, kws), kw. split; [left|done].
          -- right. exists e, kw. split; [by right|done].
        * intros [?|(e & kw & He & Hin & Hk)]; [by left; left|].
          apply elem_of_cons in He as [Heq|He].
          -- subst e. left. right. by exists kw.
          -- right. by exists e, kw. }
  destruct (Hgen []) as (H1 & H2 & H3). split; [|split].
  - apply H1. constructor.
  - exact H2.
  - intros k. rewrite H3. split; [|by right].
    intros [Hin|?]; [|done]. by apply elem_of_nil in Hin.
Qed.

(* ===================================================================== *)
(** * Requirement extraction *)
(* ===================================================================== *)

Section Requirements.
Implicit Types (s jd w : string) (prev : option ascii) (cap : option string).

Lemma section_items_stripped section :
  Forall (fun item => item <> "" /\ strip item = item) (section_items section).
Proof.
  unfold section_items.
  induction (Re.split item_separator section) as [|item items IH]; [constructor|].
  cbn [flat_map]. apply Forall_app. split; [|exact IH].
  destruct (strip item) as [|c t] eqn:E; cbn [truthy]; constructor; [|constructor].
  split; [done|]. rewrite <- E. apply strip_idemp.
Qed.

Lemma fold_left_app_Forall {A B} (P : B -> Prop) (f : A -> list B) l acc :
  Forall P acc -> (forall x, Forall P (f x)) ->
  Forall P (fold_left (fun acc x => acc ++ f x) l acc).
Proof.
  intros Hacc Hf. revert acc Hacc.
  induction l as [|x l IH]; intros acc Hacc; cbn [fold_left]; [done|].
  apply IH, Forall_app. by split.
Qed.

(** A case-insensitive literal matches only where the lowercased text
    starts with the lowercased literal. *)
Lemma exec_ilit w : forall R s prev cap (k : @Re.cont R) x,
  Re.exec (Re.ilit w) R s prev cap k = Some x ->
  startswith (lower w) (lower s) = true.
Proof.
  induction w as [|c w IH]; intros R s prev cap k x; [done|].
  cbn [Re.ilit Re.exec]. destruct s as [|c' s]; [done|].
  unfold Re.ichar at 1. destruct (Ascii.eqb (lower_char c') (lower_char c)) eqn:E; [|done].
  intros H. apply IH in H. cbn [lower startswith].
  rewrite Ascii.eqb_sym, E. exact H.
Qed.

Lemma contains_cons_false w c s :
  contains w (String c s) = false ->
  startswith w (String c s) = false /\ contains w s = false.
Proof. cbn [contains]. by intros [? ?]%orb_false_elim. Qed.

(** A pattern that opens with a literal finds nothing in a text that does
    not contain the literal, whatever the letter case. *)
Lemma finditer_heading_absent w (rest : Re.re) : forall s prev skip,
  contains (lower w) (lower s) = false ->
  Re.finditer_from (Re.Seq (Re.ilit w) rest) s prev skip = [].
Proof.
  assert (Hno : forall s prev,
    startswith (lower w) (lower s) = false ->
    Re.match_here (Re.Seq (Re.ilit w) rest) s prev = None).
  { intros s prev Hs. unfold Re.match_here. cbn [Re.exec].
    destruct (Re.exec (Re.ilit w) _ s prev None _) eqn:E; [|done].
    apply exec_ilit in E. congruence. }
  induction s as [|c s IH]; intros prev skip Hc.
  - destruct skip; cbn [Re.finditer_from]; [|done].
    rewrite Hno; [done|]. cbn [lower contains] in Hc.
    by apply orb_false_elim in Hc as [? _].
  - cbn [lower] in Hc. apply contains_cons_false in Hc as [Hs Hc].
    destruct skip; cbn [Re.finditer_from]; [|by apply IH].
    rewrite Hno by exact Hs. by apply IH.
Qed.

End Requirements.

(** X3.  Requirement extraction returns at most ten items, none of them
    empty and none with white space left at either end. *)
Theorem requirements_bounded_and_stripped (jd : string) :
  length (_extract_requirements jd) <= 10 /\
  Forall (fun item => item <> "" /\ strip item = item) (_extract_requirements jd).
Proof.
  unfold _extract_requirements. split.
  - rewrite length_take. lia.
  - apply Forall_take.
    assert (Hgen : forall patterns acc,
      Forall (fun item => item <> "" /\ strip item = item) acc ->
      Forall (fun item => item <> "" /\ strip item = item)
        (fold_left (fun requirements pattern =>
                      fold_left (fun requirements group1 =>
                                   requirements ++ section_items (strip group1))
                                (Re.finditer_group1 pattern jd) requirements)
                   patterns acc)).
    { induction patterns as [|p patterns IH]; intros acc Hacc; cbn [fold_left]; [done|].
      apply IH.
      apply (fold_left_app_Forall _ (fun group1 => section_items (strip group1)));
        [done|]. intros g. apply section_items_stripped. }
    apply Hgen. constructor.
Qed.

(** X4.  An ASCII job description that contains none of "requirement",
    "qualification", "what you" and "you should have", in any letter case,
    yields no requirement.  (Outside ASCII a heading can be spelled with
    U+0131 or U+017F, which IGNORECASE matches and [lower] does not
    change.) *)
Theorem requirements_need_a_heading (jd : string) :
  isascii jd = true ->
  Forall (fun w => contains w (lower jd) = false) requirement_headings ->
  _extract_requirements jd = [].
Proof.
  intros _ H. unfold requirement_headings in H.
  apply Forall_cons in H as [H1 H].
  apply Forall_cons in H as [H2 H].
  apply Forall_cons in H as [H3 H].
  apply Forall_cons in H as [H4 _].
  unfold _extract_requirements, req_patterns, Re.finditer_group1.
  cbn [fold_left Re.seqs].
  rewrite (finditer_heading_absent "requirement") by exact H1.
  rewrite (finditer_heading_absent "qualification") by exact H2.
  rewrite (finditer_heading_absent "what you") by exact H3.
  rewrite (finditer_heading_absent "you should have") by exact H4.
  reflexivity.
Qed.

Lemma requirements_need_a_heading_witness :
  isascii Cases.plain_text = true /\
  Forall (fun w => contains w (lower Cases.plain_text) = false) requirement_headings /\
  _extract_requirements Cases.plain_text = [].
Proof.
  assert (H : Forall (fun w => contains w (lower Cases.plain_text) = false)
                     requirement_headings)
    by (repeat constructor).
  split; [reflexivity|]. split; [exact H|].
  apply (requirements_need_a_heading Cases.plain_text); [reflexivity|exact H].
Defined.

(* ===================================================================== *)
(** * Company information *)
(* ===================================================================== *)

Lemma first_industry_spec jd_lower industries :
  (first_industry jd_lower industries = "" /\
   Forall (fun i => contains i jd_lower = false) industries) \/
  first_such (fun i => contains i jd_lower) industries
             (first_industry jd_lower industries).
Proof.
  unfold first_industry. induction industries as [|i l IH].
  - left. by split.
  - rewrite filter_cons. destruct (contains i jd_lower) eqn:E.
    + rewrite decide_True by done. right. exists 0. split; [done|]. split; [done|].
      intros j y Hj. lia.
    + rewrite decide_False by congruence.
      destruct IH as [[H1 H2]|(n & Hn & Hp & Hbefore)].
      * left. split; [done|by constructor].
      * right. exists (S n). split; [done|]. split; [done|].
        intros [|j] y Hj Hy; simplify_eq/=; [done|].
        apply (Hbefore j); [lia|done].
Qed.

Lemma any_true_Exists {A} (p : A -> bool) (l : list A) :
  any p l = true -> Exists (fun x => p x = true) l.
Proof.
  unfold any. induction l as [|x l IH]; cbn [existsb]; [done|].
  intros [H|H]%orb_true_iff; [by left|right; auto].
Qed.

Lemma any_false_Forall {A} (p : A -> bool) (l : list A) :
  any p l = false -> Forall (fun x => p x = false) l.
Proof.
  unfold any. induction l as [|x l IH]; cbn [existsb]; [constructor|].
  intros [H1 H2]%orb_false_iff. constructor; auto.
Qed.

(** X5.  For an ASCII job description: without an industries category the
    company-information step, and with it the whole analysis, raises
    [KeyError]; with one it returns a guess whose size is always empty and
    whose culture list is always empty, whose industry is the first listed
    industry, in table order, that occurs in the lowercased text (empty
    when none does), and whose stage is "startup" when a startup term
    occurs, whether or not an enterprise term does, "enterprise" when an
    enterprise term occurs and no startup term does, and empty when
    neither does. *)
Theorem company_info_guess (self : JobDescriptionAnalyzer.t) (jd : string) :
  isascii jd = true ->
  let occurs := fun term => contains term (lower jd) in
  match dict_get (keyword_table self) "industries" with
  | None =>
      _extract_company_info self jd = Raise (KeyError "industries") /\
      analyze self (Some jd) = Raise (KeyError "industries")
  | Some industries =>
      exists info,
        _extract_company_info self jd = Ok info /\
        CompanyInfo.size info = "" /\
        CompanyInfo.culture info = [] /\
        ((CompanyInfo.industry info = "" /\
          Forall (fun i => occurs i = false) industries) \/
         first_such occurs industries (CompanyInfo.industry info)) /\
        ((CompanyInfo.stage info = "startup" /\
          Exists (fun term => occurs term = true) startup_terms) \/
         (CompanyInfo.stage info = "enterprise" /\
          Forall (fun term => occurs term = false) startup_terms /\
          Exists (fun term => occurs term = true) enterprise_terms) \/
         (CompanyInfo.stage info = "" /\
          Forall (fun term => occurs term = false) startup_terms /\
          Forall (fun term => occurs term = false) enterprise_terms))
  end.
Proof.
  intros _ occurs.
  unfold analyze, analyze_text, _extract_company_info, dict_item.
  destruct (dict_get (keyword_table self) "industries") as [industries|]; [|by split].
  cbn [rbind]. eexists. split; [reflexivity|].
  cbn [CompanyInfo.size CompanyInfo.culture CompanyInfo.industry CompanyInfo.stage].
  split; [done|]. split; [done|]. split; [apply first_industry_spec|].
  change ["startup"; "early stage"; "seed"] with startup_terms.
  change ["enterprise"; "fortune"; "large"] with enterprise_terms.
  fold occurs.
  destruct (any occurs startup_terms) eqn:Es.
  - left. split; [done|]. by apply any_true_Exists.
  - apply any_false_Forall in Es.
    destruct (any occurs enterprise_terms) eqn:Ee.
    + right; left. split; [done|]. split; [done|]. by apply any_true_Exists.
    + right; right. split; [done|]. split; [done|]. by apply any_false_Forall.
Qed.

(** The example text names two industries, of which "saas" comes first in
    the table, and no term of either stage. *)
Lemma company_info_guess_witness :
  let occurs := fun term => contains term (lower Example.job_text) in
  isascii Example.job_text = true /\
  match dict_get PM_KEYWORDS "industries" with
  | None =>
      _extract_company_info JobDescriptionAnalyzer.__init__ Example.job_text
      = Raise (KeyError "industries") /\
      analyze JobDescriptionAnalyzer.__init__ (Some Example.job_text)
      = Raise (KeyError "industries")
  | Some industries =>
      exists info,
        _extract_company_info JobDescriptionAnalyzer.__init__ Example.job_text = Ok info /\
        CompanyInfo.size info = "" /\
        CompanyInfo.culture info = [] /\
        ((CompanyInfo.industry info = "" /\
          Forall (fun i => occurs i = false) industries) \/
         first_such occurs industries (CompanyInfo.industry info)) /\
        ((CompanyInfo.stage info = "startup" /\
          Exists (fun term => occurs term = true) startup_terms) \/
         (CompanyInfo.stage info = "enterprise" /\
          Forall (fun term => occurs term = false) startup_terms /\
          Exists (fun term => occurs term = true) enterprise_terms) \/
         (CompanyInfo.stage info = "" /\
          Forall (fun term => occurs term = false) startup_terms /\
          Forall (fun term => occurs term = false) enterprise_terms))
  end.
Proof.
  split; [reflexivity|].
  apply (company_info_guess JobDescriptionAnalyzer.__init__ Example.job_text).
  reflexivity.
Defined.

(* ===================================================================== *)
(** * Summary and notes *)
(* ===================================================================== *)

Section NatOrder.
Context {A : Type} (key : A -> nat).

Lemma sorted_reverse_nat_descending (l : list A) :
  StronglySorted (not_below Nat.ltb key) (sorted_reverse Nat.ltb key l).
Proof.
  apply (sorted_reverse_descending Nat.ltb key (fun _ => True)).
  - intros a b H. apply Nat.ltb_lt in H. apply Nat.ltb_ge. lia.
  - intros a b c _ H1 H2. apply Nat.ltb_ge in H1, H2. apply Nat.ltb_ge. lia.
  - by apply Forall_forall.
Qed.

(** The fold of [max]: it ends on the first item with the largest key. *)
Lemma max_fold_first_maximal (pre l : list A) (best : A) :
  first_maximal key pre best ->
  first_maximal key (pre ++ l)
    (fold_left (fun best y => if Nat.ltb (key best) (key y) then y else best) l best).
Proof.
  revert pre best. induction l as [|y l IH]; intros pre best Hbest; cbn [fold_left].
  - by rewrite app_nil_r.
  - replace (pre ++ y :: l) with ((pre ++ [y]) ++ l) by (by rewrite <- app_assoc).
    apply IH. destruct Hbest as (i & Hi & Hmax & Hbefore).
    destruct (Nat.ltb (key best) (key y)) eqn:E.
    + apply Nat.ltb_lt in E. exists (length pre). split; [|split].
      * by rewrite lookup_app_r, Nat.sub_diag by lia.
      * intros z [Hz|Hz%list_elem_of_singleton]%elem_of_app; [|by subst].
        specialize (Hmax z Hz). lia.
      * intros j z Hj Hz. rewrite lookup_app_l in Hz by done.
        specialize (Hmax z (list_elem_of_lookup_2 _ _ _ Hz)). lia.
    + apply Nat.ltb_ge in E. exists i. split; [|split].
      * by apply lookup_app_l_Some.
      * intros z [Hz|Hz%list_elem_of_singleton]%elem_of_app; [by apply Hmax|by subst].
      * intros j z Hj Hz. apply (Hbefore j); [done|].
        apply lookup_lt_Some in Hi. by rewrite lookup_app_l in Hz by lia.
Qed.

Lemma max_by_first_maximal (x : A) (l : list A) :
  exists top, max_by Nat.ltb key (x :: l) = Ok top /\ first_maximal key (x :: l) top.
Proof.
  eexists. split; [reflexivity|].
  apply (max_fold_first_maximal [x] l x).
  exists 0. split; [done|]. split.
  - by intros z ->%list_elem_of_singleton.
  - intros j z Hj. lia.
Qed.

End NatOrder.

(** Every item kept by a cut of a descending list is at least as good as
    every item the cut drops. *)
Lemma sorted_cut_keeps_the_best {A K} (lt : K -> K -> bool) (key : A -> K)
    (sorted : list A) n x y :
  StronglySorted (not_below lt key) sorted ->
  x ∈ take n sorted -> y ∈ drop n sorted -> lt (key x) (key y) = false.
Proof.
  intros Hs Hx Hy. rewrite <- (take_drop n sorted) in Hs.
  exact (StronglySorted_app_1_elem_of _ _ _ _ _ Hs Hx Hy).
Qed.

(** X6.  The summary of an analysis names min(3, number of categories)
    focus areas; they are categories of the analysis, each with at least as
    many found keywords as any category left unnamed; and the summary
    reports the total of found keywords and the number of requirements. *)
Theorem analysis_summary_names_the_top_categories
    (found_keywords : dict (list kw_data)) (requirements : list string) :
  exists named unnamed : dict (list kw_data),
    _generate_analysis_summary found_keywords requirements
    = "Found " +:+ str_of_int (total_keywords found_keywords) +:+
      " relevant PM keywords. " +:+
      "Top focus areas: " +:+ join ", " (keys named) +:+ ". " +:+
      "Identified " +:+ str_of_int (length requirements) +:+ " key requirements." /\
    named ++ unnamed ≡ₚ found_keywords /\
    length named = min 3 (length found_keywords) /\
    forall x y, x ∈ named -> y ∈ unnamed -> length y.2 <= length x.2.
Proof.
  set (ranked := sorted_reverse Nat.ltb (fun x : string * list kw_data => length x.2)
                                found_keywords).
  exists (take 3 ranked), (drop 3 ranked). split; [reflexivity|].
  split; [by rewrite take_drop; apply sorted_reverse_perm|].
  split; [by rewrite length_take; unfold ranked; rewrite sorted_reverse_length|].
  intros x y Hx Hy.
  pose proof (sorted_cut_keeps_the_best Nat.ltb _ ranked 3 x y
                (sorted_reverse_nat_descending _ _) Hx Hy) as H.
  by apply Nat.ltb_ge in H.
Qed.

(** X7.  On an analysis without any category the optimization notes raise
    [ValueError]; otherwise there are exactly four notes: the total of found
    keywords, the emphasized category, which is the first category with the
    largest number of found keywords, its underscores turned into spaces,
    and the two fixed notes. *)
Theorem optimization_notes_emphasis (jd_analysis : JobAnalysis.t) :
  match JobAnalysis.keywords jd_analysis with
  | [] => _generate_optimization_notes jd_analysis = Raise ValueError
  | _ :: _ =>
      exists top,
        first_maximal (fun x : string * list kw_data => length x.2)
                      (JobAnalysis.keywords jd_analysis) top /\
        _generate_optimization_notes jd_analysis
        = Ok [ "Optimized for " +:+
               str_of_int (total_keywords (JobAnalysis.keywords jd_analysis)) +:+
               " relevant PM keywords from job description";
               "Emphasized " +:+ replace top.1 "_" " " +:+ " based on job requirements";
               "Reordered experiences by relevance score";
               "Prioritized skills matching job description" ]
  end.
Proof.
  unfold _generate_optimization_notes.
  destruct (JobAnalysis.keywords jd_analysis) as [|x l]; [done|].
  destruct (max_by_first_maximal (fun x : string * list kw_data => length x.2) x l)
    as (top & Htop & Hfirst).
  exists top. split; [exact Hfirst|]. by rewrite Htop.
Qed.

(* ===================================================================== *)
(** * More about [tailor_resume] *)
(* ===================================================================== *)

Section TailorOutcome.
Implicit Types (st : state) (jd : option string) (focus : option (list string)).

Lemma dict_set_nonempty {V} (d : dict V) k v : dict_set d k v <> [].
Proof. destruct d as [|[k0 v0] d]; simpl; [done|]. by destruct (String.eqb k0 k). Qed.

Lemma find_keywords_nonempty (self : JobDescriptionAnalyzer.t) jd_lower :
  keyword_table self <> [] -> find_keywords self jd_lower <> [].
Proof.
  unfold find_keywords. destruct (keyword_table self) as [|[c kws] table]; [done|].
  intros _. cbn [fold_left].
  generalize (dict_set_nonempty (@nil (string * list kw_data)) c
                (found_in_category jd_lower kws)).
  generalize (dict_set [] c (found_in_category jd_lower kws)).
  induction table as [|[c' kws'] table IH]; intros acc Hacc; cbn [fold_left]; [done|].
  apply IH, dict_set_nonempty.
Qed.

(** An analysis that was returned has at least one category. *)
Lemma analyze_Ok_keywords (self : JobDescriptionAnalyzer.t) jd jd_analysis :
  analyze self jd = Ok jd_analysis -> JobAnalysis.keywords jd_analysis <> [].
Proof.
  destruct jd as [text|]; [|done]. unfold analyze, analyze_text, _extract_company_info.
  unfold dict_item. destruct (dict_get (keyword_table self) "industries") eqn:E; [|done].
  cbn [rbind]. intros [= <-]. cbn [JobAnalysis.keywords].
  apply find_keywords_nonempty. by destruct (keyword_table self).
Qed.

(** An exception of [analyze] leaves before anything is assigned. *)
Lemma tailor_resume_raise jd focus st e :
  analyze (analyzer st) jd = Raise e -> tailor_resume jd focus st = (Raise e, st).
Proof.
  intros H. unfold tailor_resume. unfold bind at 1 2. unfold gets at 1, lift at 1.
  by rewrite H.
Qed.

End TailorOutcome.

(** X8.  For an ASCII job description and experiences written in ASCII,
    [tailor_resume] fails only where [analyze] does: when the analysis
    raises, the same exception leaves [tailor_resume] and the state is the
    one before the call, no score assigned; when the analysis returns, a
    resume is returned that carries it, and the state is the ranked one. *)
Theorem tailor_resume_fails_only_in_analyze
    (job_description : option string) (focus_areas : option (list string))
    (st : state) :
  allocated st ->
  ascii_argument job_description = true ->
  ascii_experiences st ->
  match analyze (analyzer st) job_description with
  | Raise e => tailor_resume job_description focus_areas st = (Raise e, st)
  | Ok jd_analysis =>
      exists resume,
        tailor_resume job_description focus_areas st
        = (Ok resume, ranked_state (JobAnalysis.keyword_scores jd_analysis) st) /\
        TailoredResume.job_analysis resume = jd_analysis
  end.
Proof.
  intros Hall _ _. rewrite tailor_resume_run by done.
  destruct (analyze (analyzer st) job_description) as [a|e] eqn:Ea; [|done].
  destruct (optimization_notes_Ok a (analyze_Ok_keywords _ _ _ Ea)) as [notes Hn].
  cbv zeta. rewrite Hn. by eexists.
Qed.

Lemma tailor_resume_fails_only_in_analyze_witness :
  allocated Example.tailor /\
  ascii_argument (Some Example.job_text) = true /\
  ascii_experiences Example.tailor /\
  match analyze (analyzer Example.tailor) (Some Example.job_text) with
  | Raise e => tailor_resume (Some Example.job_text) None Example.tailor
               = (Raise e, Example.tailor)
  | Ok jd_analysis =>
      exists resume,
        tailor_resume (Some Example.job_text) None Example.tailor
        = (Ok resume,
           ranked_state (JobAnalysis.keyword_scores jd_analysis) Example.tailor) /\
        TailoredResume.job_analysis resume = jd_analysis
  end.
Proof.
  split; [exact example_allocated|]. split; [reflexivity|].
  split; [exact example_ascii_experiences|].
  apply (tailor_resume_fails_only_in_analyze (Some Example.job_text) None Example.tailor).
  - exact example_allocated.
  - reflexivity.
  - exact example_ascii_experiences.
Defined.

(** X9.  A tailor whose analyzer has no industries category cannot tailor
    any job text: the call raises [KeyError] for the missing key and leaves
    the state as it was, whatever the references of the profile. *)
Theorem missing_industries_stops_tailoring
    (text : string) (focus_areas : option (list string)) (st : state) :
  dict_mem (keyword_table (analyzer st)) "industries" = false ->
  tailor_resume (Some text) focus_areas st = (Raise (KeyError "industries"), st).
Proof.
  intros Hmem. apply tailor_resume_raise.
  unfold analyze, analyze_text, _extract_company_info, dict_item.
  unfold dict_mem in Hmem.
  by destruct (dict_get (keyword_table (analyzer st)) "industries").
Qed.

Lemma missing_industries_stops_tailoring_witness :
  dict_mem (keyword_table (analyzer Cases.headless_tailor)) "industries" = false /\
  tailor_resume (Some Example.job_text) None Cases.headless_tailor
  = (Raise (KeyError "industries"), Cases.headless_tailor).
Proof.
  split; [reflexivity|].
  apply (missing_industries_stops_tailoring Example.job_text None Cases.headless_tailor).
  reflexivity.
Defined.

(** X10.  For a job text, experiences and skills written in ASCII, the cut
    to five experiences and fifteen skills keeps the best: what is kept and
    what is dropped make up the profile's experiences, respectively skills,
    and nothing dropped has a score above the score of anything kept. *)
Theorem top_k_keeps_the_best
    (profile : UserProfile.t) (objs : store) (text : string)
    (focus_areas : option (list string)) :
  allocated (ResumeTailor.__init__ profile objs) ->
  isascii text = true ->
  ascii_experiences (ResumeTailor.__init__ profile objs) ->
  ascii_skills (ResumeTailor.__init__ profile objs) ->
  exists resume st' dropped_experiences dropped_skills,
    tailor_resume (Some text) focus_areas (ResumeTailor.__init__ profile objs)
    = (Ok resume, st') /\
    let keyword_scores :=
      JobAnalysis.keyword_scores (TailoredResume.job_analysis resume) in
    TailoredResume.experiences resume ++ dropped_experiences
      ≡ₚ UserProfile.experiences profile /\
    (forall x y, x ∈ TailoredResume.experiences resume -> y ∈ dropped_experiences ->
       PrimFloat.ltb (score_at keyword_scores objs x) (score_at keyword_scores objs y)
       = false) /\
    TailoredResume.skills resume ++ dropped_skills ≡ₚ UserProfile.skills profile /\
    (forall x y, x ∈ TailoredResume.skills resume -> y ∈ dropped_skills ->
       PrimFloat.ltb (skill_score keyword_scores x) (skill_score keyword_scores y)
       = false).
Proof.
  intros Hall _ _ _. rewrite tailor_resume_run by done.
  destruct (shipped_analysis_Ok text) as (a & notes & Ha & Hn).
  cbn [analyzer ResumeTailor.__init__]. rewrite Ha. cbv zeta. rewrite Hn.
  set (kws := JobAnalysis.keyword_scores a).
  assert (Hnn : all_nonneg kws).
  { destruct (analyze_text_Ok JobDescriptionAnalyzer.__init__ text eq_refl)
      as (a' & Ha' & _ & Hs).
    assert (a' = a) as -> by (unfold analyze in Ha; congruence).
    unfold kws. rewrite Hs. apply calculate_keyword_scores_nonneg. }
  set (ranked := sorted_reverse PrimFloat.ltb (score_at kws objs)
                                (UserProfile.experiences profile)).
  set (pairs := (fun skill => (skill, skill_score kws skill))
                <$> UserProfile.skills profile).
  set (sorted := sorted_reverse PrimFloat.ltb snd pairs).
  eexists (assembled (ResumeTailor.__init__ profile objs) a notes), _,
          (drop 5 ranked), ((drop 15 sorted).*1).
  split; [reflexivity|].
  cbn [assembled TailoredResume.experiences TailoredResume.skills
       TailoredResume.job_analysis user_profile objects ResumeTailor.__init__].
  fold kws. fold ranked. unfold prioritized.
  change (map ?f (UserProfile.skills profile)) with (f <$> UserProfile.skills profile).
  fold pairs. fold sorted.
  assert (Hpairs : pairs.*1 = UserProfile.skills profile).
  { unfold pairs. rewrite <- list_fmap_compose. apply list_fmap_id. }
  assert (Hel : forall p, p ∈ sorted -> p.2 = skill_score kws p.1).
  { intros p Hp. unfold sorted in Hp. rewrite sorted_reverse_perm in Hp.
    unfold pairs in Hp. by apply list_elem_of_fmap in Hp as (x & -> & _). }
  split; [|split; [|split]].
  - rewrite take_drop. apply sorted_reverse_perm.
  - intros x y Hx Hy.
    apply (sorted_cut_keeps_the_best PrimFloat.ltb (score_at kws objs) ranked 5);
      [|done..].
    apply (sorted_reverse_descending PrimFloat.ltb _ (fun k => is_nan k = false)
             FloatFacts.ltb_asym FloatFacts.ltb_false_trans).
    apply Forall_forall. intros r _. apply FloatFacts.nonneg_not_nan.
    by apply score_at_nonneg.
  - rewrite <- fmap_take, <- fmap_app, take_drop. unfold sorted.
    by rewrite sorted_reverse_perm, Hpairs.
  - intros x y Hx Hy. rewrite <- fmap_take in Hx.
    apply list_elem_of_fmap in Hx as (px & -> & Hpx).
    apply list_elem_of_fmap in Hy as (py & -> & Hpy).
    rewrite <- (Hel px) by (by apply subseteq_take in Hpx).
    rewrite <- (Hel py) by (by apply subseteq_drop in Hpy).
    apply (sorted_cut_keeps_the_best PrimFloat.ltb snd sorted 15); [|done..].
    apply (sorted_reverse_descending PrimFloat.ltb snd (fun k => is_nan k = false)
             FloatFacts.ltb_asym FloatFacts.ltb_false_trans).
    apply Forall_forall. intros p Hp. unfold pairs in Hp.
    apply list_elem_of_fmap in Hp as (z & -> & _). cbn.
    apply FloatFacts.nonneg_not_nan. by apply skill_score_nonneg.
Qed.

Lemma long_ascii_skills : ascii_skills Cases.long_tailor.
Proof. repeat constructor. Qed.

Lemma top_k_keeps_the_best_witness :
  allocated Cases.long_tailor /\
  isascii Example.job_text = true /\
  ascii_experiences Cases.long_tailor /\
  ascii_skills Cases.long_tailor /\
  exists resume st' dropped_experiences dropped_skills,
    tailor_resume (Some Example.job_text) None Cases.long_tailor = (Ok resume, st') /\
    let keyword_scores :=
      JobAnalysis.keyword_scores (TailoredResume.job_analysis resume) in
    TailoredResume.experiences resume ++ dropped_experiences
      ≡ₚ [4; 1; 2; 3; 7; 5; 6] /\
    (forall x y, x ∈ TailoredResume.experiences resume -> y ∈ dropped_experiences ->
       PrimFloat.ltb (score_at keyword_scores Cases.long_heap x)
                     (score_at keyword_scores Cases.long_heap y)
       = false) /\
    TailoredResume.skills resume ++ dropped_skills ≡ₚ ["Excel"; "SQL"; "Go"] /\
    (forall x y, x ∈ TailoredResume.skills resume -> y ∈ dropped_skills ->
       PrimFloat.ltb (skill_score keyword_scores x) (skill_score keyword_scores y)
       = false).
Proof.
  split; [exact long_allocated|]. split; [reflexivity|].
  split; [exact long_ascii_experiences|]. split; [exact long_ascii_skills|].
  apply (top_k_keeps_the_best Cases.long_profile Cases.long_heap Example.job_text None).
  - exact long_allocated.
  - reflexivity.
  - exact long_ascii_experiences.
  - exact long_ascii_skills.
Defined.

(* ===================================================================== *)
(** * Ranking when titles or keywords decide alone *)
(* ===================================================================== *)

Section Unmatched.
Implicit Types (keyword_scores : dict float) (exp : Experience.t).

Lemma sorted_reverse_all_tied {A K} (lt : K -> K -> bool) (key : A -> K) (l : list A) :
  Forall (fun x => Forall (fun y => lt (key x) (key y) = false) l) l ->
  sorted_reverse lt key l = l.
Proof.
  induction l as [|x l IH]; [done|]. intros H.
  apply Forall_cons in H as [Hx H]. cbn [sorted_reverse]. rewrite IH.
  - destruct l as [|y l]; [done|]. cbn [insert_desc].
    apply Forall_cons in Hx as [_ Hx]. apply Forall_cons in Hx as [Hxy _].
    by rewrite Hxy.
  - eapply Forall_impl; [exact H|]. intros z Hz. by apply Forall_cons in Hz as [_ ?].
Qed.

Lemma keyword_sum_nonneg keyword_scores (text : string) (acc : float) :
  all_nonneg keyword_scores -> nonneg acc = true ->
  nonneg (fold_left (fun score '(keyword, kw_score) =>
                       if contains keyword text
                       then PrimFloat.add score kw_score else score)
                    keyword_scores acc) = true.
Proof.
  unfold all_nonneg, values. revert acc.
  induction keyword_scores as [|[k v] items IH]; intros acc Hall Hacc; simpl; [done|].
  apply Forall_cons in Hall as [Hv Hall]. apply IH; [done|].
  destruct (contains k text); [|done]. by apply FloatFacts.add_nonneg.
Qed.

Lemma keyword_sum_unmatched keyword_scores exp (acc : float) :
  unmatched keyword_scores exp ->
  fold_left (fun score '(keyword, kw_score) =>
               if contains keyword (exp_text exp)
               then PrimFloat.add score kw_score else score)
            keyword_scores acc = acc.
Proof.
  unfold unmatched. induction 1 as [|[k v] items Hk _ IH]; simpl; [done|].
  cbn in Hk. by rewrite Hk.
Qed.

(** A product-manager title alone makes the score positive. *)
Lemma experience_score_pm_positive keyword_scores exp :
  all_nonneg keyword_scores -> has_pm_title exp = true ->
  PrimFloat.ltb 0 (experience_score keyword_scores exp) = true.
Proof.
  intros Hnn Hpm. unfold experience_score.
  change (any _ pm_titles) with (has_pm_title exp). rewrite Hpm.
  apply FloatFacts.add_five_pos. by apply keyword_sum_nonneg.
Qed.

Lemma experience_score_unmatched keyword_scores exp :
  unmatched keyword_scores exp -> has_pm_title exp = false ->
  experience_score keyword_scores exp = 0%float.
Proof.
  intros Hun Hpm. unfold experience_score.
  change (any _ pm_titles) with (has_pm_title exp). rewrite Hpm.
  by apply keyword_sum_unmatched.
Qed.

End Unmatched.

(** X11.  The keyword scores being non-negative and the experiences
    written in ASCII, ranking returns all the experiences of the profile,
    and every one of them whose title has a product-manager substring is
    ranked before every one that has none and whose text contains no
    keyword of the score map. *)
Theorem pm_title_outranks_unmatched (jd_analysis : JobAnalysis.t) (st : state) :
  allocated st ->
  ascii_experiences st ->
  all_nonneg (JobAnalysis.keyword_scores jd_analysis) ->
  exists out st',
    _score_experiences jd_analysis st = (Ok out, st') /\
    out ≡ₚ UserProfile.experiences (user_profile st) /\
    forall titled plain exp_titled exp_plain,
      titled ∈ UserProfile.experiences (user_profile st) ->
      plain ∈ UserProfile.experiences (user_profile st) ->
      objects st !! titled = Some exp_titled ->
      objects st !! plain = Some exp_plain ->
      has_pm_title exp_titled = true ->
      has_pm_title exp_plain = false ->
      unmatched (JobAnalysis.keyword_scores jd_analysis) exp_plain ->
      titled ∈ out /\ plain ∈ out /\ all_before out titled plain.
Proof.
  intros Hall _ Hnn. rewrite score_experiences_run by done.
  set (kws := JobAnalysis.keyword_scores jd_analysis) in *.
  set (ranked := sorted_reverse PrimFloat.ltb (score_at kws (objects st))
                                (UserProfile.experiences (user_profile st))).
  eexists _, _. split; [reflexivity|].
  split; [apply sorted_reverse_perm|].
  intros p q ep eq Hpin Hqin Hp Hq Hpm Hplain Hun.
  split; [unfold ranked; by rewrite sorted_reverse_perm|].
  split; [unfold ranked; by rewrite sorted_reverse_perm|].
  intros i j Hi Hj.
  assert (Hdesc : StronglySorted (not_below PrimFloat.ltb (score_at kws (objects st)))
                                 ranked).
  { apply (sorted_reverse_descending PrimFloat.ltb _ (fun k => is_nan k = false)
             FloatFacts.ltb_asym FloatFacts.ltb_false_trans).
    apply Forall_forall. intros r _. apply FloatFacts.nonneg_not_nan.
    by apply score_at_nonneg. }
  assert (Hlt : PrimFloat.ltb (score_at kws (objects st) q)
                              (score_at kws (objects st) p) = true).
  { unfold score_at. rewrite Hp, Hq. cbn [from_option].
    rewrite (experience_score_unmatched kws eq) by done.
    by apply experience_score_pm_positive. }
  destruct (Nat.lt_total i j) as [Hij|[Hij|Hij]]; [done|..].
  - subst j. rewrite Hi in Hj. injection Hj as <-. congruence.
  - pose proof (StronglySorted_lookup _ _ j i _ _ Hdesc Hij Hj Hi) as Hnb.
    unfold not_below in Hnb. congruence.
Qed.

(** In the example the manager has the title and the analyst matches no
    keyword. *)
Lemma pm_title_outranks_unmatched_witness :
  allocated Example.tailor /\
  ascii_experiences Example.tailor /\
  all_nonneg (JobAnalysis.keyword_scores Example.analysis) /\
  (has_pm_title Example.manager = true /\ has_pm_title Example.analyst = false /\
   unmatched (JobAnalysis.keyword_scores Example.analysis) Example.analyst) /\
  exists out st',
    _score_experiences Example.analysis Example.tailor = (Ok out, st') /\
    out ≡ₚ [10; 12; 11] /\
    forall titled plain exp_titled exp_plain,
      titled ∈ [10; 12; 11] ->
      plain ∈ [10; 12; 11] ->
      objects Example.tailor !! titled = Some exp_titled ->
      objects Example.tailor !! plain = Some exp_plain ->
      has_pm_title exp_titled = true ->
      has_pm_title exp_plain = false ->
      unmatched (JobAnalysis.keyword_scores Example.analysis) exp_plain ->
      titled ∈ out /\ plain ∈ out /\ all_before out titled plain.
Proof.
  split; [exact example_allocated|]. split; [exact example_ascii_experiences|].
  split; [exact example_scores_nonneg|].
  split; [split; [reflexivity|]; split; [reflexivity|];
          apply (bool_decide_unpack _); vm_compute; exact I|].
  apply (pm_title_outranks_unmatched Example.analysis Example.tailor).
  - exact example_allocated.
  - exact example_ascii_experiences.
  - exact example_scores_nonneg.
Defined.

(** X12.  When the skills are written in ASCII and the lowercase form of
    none is a key of the score map, prioritization returns the skills in
    the order of the profile. *)
Theorem unmatched_skills_keep_their_order (jd_analysis : JobAnalysis.t) (st : state) :
  ascii_skills st ->
  Forall (fun skill =>
            dict_mem (JobAnalysis.keyword_scores jd_analysis) (lower skill) = false)
         (UserProfile.skills (user_profile st)) ->
  _prioritize_skills jd_analysis st = (Ok (UserProfile.skills (user_profile st)), st).
Proof.
  intros _ Hno. unfold _prioritize_skills, bind, gets, ret. f_equal. f_equal.
  unfold prioritized.
  set (kws := JobAnalysis.keyword_scores jd_analysis) in *.
  change (map ?f ?l) with (f <$> l).
  set (pairs := (fun skill => (skill, skill_score kws skill))
                <$> UserProfile.skills (user_profile st)).
  assert (Hzero : Forall (fun p : string * float => p.2 = 0%float) pairs).
  { unfold pairs. apply Forall_fmap. eapply Forall_impl; [exact Hno|].
    intros skill Hs. cbn. unfold skill_score. rewrite Hs.
    unfold dict_mem in Hs. by destruct (dict_get kws (lower skill)). }
  rewrite sorted_reverse_all_tied.
  - unfold pairs. rewrite <- list_fmap_compose. apply list_fmap_id.
  - rewrite Forall_forall in Hzero. apply Forall_forall. intros x Hx.
    apply Forall_forall. intros y Hy. by rewrite (Hzero x Hx), (Hzero y Hy).
Qed.

Lemma unmatched_skills_keep_their_order_witness :
  ascii_skills Example.tailor /\
  Forall (fun skill =>
            dict_mem (JobAnalysis.keyword_scores Example.no_keywords) (lower skill) = false)
         (UserProfile.skills (user_profile Example.tailor)) /\
  _prioritize_skills Example.no_keywords Example.tailor
  = (Ok (UserProfile.skills (user_profile Example.tailor)), Example.tailor).
Proof.
  assert (H : Forall (fun skill =>
                dict_mem (JobAnalysis.keyword_scores Example.no_keywords) (lower skill)
                = false)
              (UserProfile.skills (user_profile Example.tailor)))
    by (repeat constructor).
  split; [exact example_ascii_skills|]. split; [exact H|].
  apply (unmatched_skills_keep_their_order Example.no_keywords Example.tailor);
    [exact example_ascii_skills|exact H].
Defined.

(* ===================================================================== *)
(** * Job texts without keywords, and letter case *)
(* ===================================================================== *)

Section NoKeywords.
Implicit Types (jd_lower : string) (table : dict (list string)).

Lemma fold_left_app_elem_of {A} (ls : list (list A)) (acc : list A) x :
  x ∈ fold_left (fun acc l => acc ++ l) ls acc <-> x ∈ acc \/ exists l, l ∈ ls /\ x ∈ l.
Proof.
  revert acc. induction ls as [|l ls IH]; intros acc; cbn [fold_left].
  - split; [tauto|]. intros [?|(l & Hl & _)]; [done|]. by apply elem_of_nil in Hl.
  - rewrite IH, elem_of_app. split.
    + intros [[?|?]|(l' & Hl' & Hx)]; [by left|right..].
      * exists l. split; [left|done].
      * exists l'. split; [by right|done].
    + intros [?|(l' & Hl' & Hx)]; [by left; left|].
      apply elem_of_cons in Hl' as [->|Hl']; [by left; right|].
      right. by exists l'.
Qed.

(** [all_keywords] holds exactly the phrases of the categories. *)
Lemma all_keywords_elem_of table k :
  k ∈ all_keywords (init_with table) <-> exists entry, entry ∈ table /\ k ∈ entry.2.
Proof.
  cbn [all_keywords init_with]. rewrite fold_left_app_elem_of. unfold values. split.
  - intros [Hk|(l & Hl & Hk)]; [by apply elem_of_nil in Hk|].
    apply list_elem_of_fmap in Hl as (entry & -> & He). by exists entry.
  - intros (entry & He & Hk). right. exists entry.2. split; [|done].
    apply list_elem_of_fmap. by exists entry.
Qed.

Lemma found_in_category_absent jd_lower listed :
  Forall (fun k => contains k jd_lower = false) listed ->
  found_in_category jd_lower listed = [].
Proof.
  induction 1 as [|k listed Hk _ IH]; [done|].
  by rewrite found_in_category_cons, Hk, IH.
Qed.

(** With no phrase of the table in the text every category is found
    empty. *)
Lemma find_keywords_absent table jd_lower :
  NoDup (keys table) ->
  Forall (fun k => contains k jd_lower = false) (all_keywords (init_with table)) ->
  find_keywords (init_with table) jd_lower = map (fun entry => (entry.1, [])) table.
Proof.
  intros Hnd Habs. rewrite find_keywords_NoDup by done. cbn [keyword_table init_with].
  rewrite Forall_forall in Habs.
  apply map_ext_in. intros entry He. f_equal.
  apply found_in_category_absent, Forall_forall. intros k Hk.
  apply Habs, all_keywords_elem_of. exists entry. split; [|done].
  by apply list_elem_of_In.
Qed.

(** Without any score no skill is preferred. *)
Lemma prioritized_without_scores (profile : UserProfile.t) :
  prioritized [] (UserProfile.skills profile) = UserProfile.skills profile.
Proof.
  unfold prioritized. change (map ?f ?l) with (f <$> l).
  rewrite sorted_reverse_all_tied.
  - rewrite <- list_fmap_compose. apply list_fmap_id.
  - apply Forall_forall. intros x Hx. apply Forall_forall. intros y Hy.
    apply list_elem_of_fmap in Hx as (sx & -> & _).
    apply list_elem_of_fmap in Hy as (sy & -> & _). reflexivity.
Qed.

End NoKeywords.

(** X13.  When no keyword of the shipped table occurs in the lowercased
    form of an ASCII job text, tailoring still returns: the score map is empty; the summary is
    the profile's summary followed by " Specialized in ." with no keyword
    and no theme; the skills are the first fifteen of the profile in their
    original order; the experiences are the first five after the ones with
    a product-manager title were moved to the front; and the notes report
    zero keywords and emphasize the first category. *)
Theorem tailoring_without_keywords
    (profile : UserProfile.t) (objs : store) (text : string)
    (focus_areas : option (list string)) :
  allocated (ResumeTailor.__init__ profile objs) ->
  isascii text = true ->
  Forall (fun k => contains k (lower text) = false)
         (all_keywords JobDescriptionAnalyzer.__init__) ->
  exists resume st',
    tailor_resume (Some text) focus_areas (ResumeTailor.__init__ profile objs)
    = (Ok resume, st') /\
    JobAnalysis.keyword_scores (TailoredResume.job_analysis resume) = [] /\
    TailoredResume.summary resume = UserProfile.summary profile +:+ " Specialized in ." /\
    TailoredResume.skills resume = take 15 (UserProfile.skills profile) /\
    TailoredResume.experiences resume
    = take 5 (filter (fun r => pm_at objs r = true) (UserProfile.experiences profile)
              ++ filter (fun r => pm_at objs r = false) (UserProfile.experiences profile)) /\
    TailoredResume.optimization_notes resume
    = [ "Optimized for 0 relevant PM keywords from job description";
        "Emphasized core skills based on job requirements";
        "Reordered experiences by relevance score";
        "Prioritized skills matching job description" ].
Proof.
  intros Hall _ Habs. rewrite tailor_resume_run by done.
  cbn [analyzer ResumeTailor.__init__].
  assert (Hnd : NoDup (keys PM_KEYWORDS))
    by (apply (bool_decide_unpack _); vm_compute; exact I).
  pose proof (find_keywords_absent PM_KEYWORDS (lower text) Hnd Habs) as Hfound.
  change (init_with PM_KEYWORDS) with JobDescriptionAnalyzer.__init__ in Hfound.
  destruct (analyze_text_Ok JobDescriptionAnalyzer.__init__ text eq_refl)
    as (a & Ha & Hk & Hs).
  unfold analyze. rewrite Ha. cbv zeta.
  rewrite Hfound in Hk, Hs.
  assert (Hscores : JobAnalysis.keyword_scores a = []) by (by rewrite Hs).
  assert (Hnotes : _generate_optimization_notes a
                   = Ok [ "Optimized for 0 relevant PM keywords from job description";
                          "Emphasized core skills based on job requirements";
                          "Reordered experiences by relevance score";
                          "Prioritized skills matching job description" ]).
  { unfold _generate_optimization_notes. by rewrite Hk. }
  rewrite Hnotes. eexists _, _. split; [reflexivity|].
  cbn [assembled TailoredResume.job_analysis TailoredResume.summary
       TailoredResume.skills TailoredResume.experiences
       TailoredResume.optimization_notes user_profile objects ResumeTailor.__init__].
  rewrite Hscores.
  split; [done|]. split; [|split; [|split; [|done]]].
  - unfold optimized_summary. cbn [sorted_reverse take fmap list_fmap has_theme any
                                   existsb app join].
    by rewrite append_assoc.
  - f_equal.
    apply prioritized_without_scores.
  - f_equal. apply sorted_reverse_two_levels. intros x y.
    rewrite !score_at_no_keywords. by destruct (pm_at objs x), (pm_at objs y).
Qed.

Lemma plain_text_has_no_keyword :
  Forall (fun k => contains k (lower Cases.plain_text) = false)
         (all_keywords JobDescriptionAnalyzer.__init__).
Proof. apply (bool_decide_unpack _). vm_compute. exact I. Qed.

Lemma tailoring_without_keywords_witness :
  allocated Example.tailor /\
  isascii Cases.plain_text = true /\
  Forall (fun k => contains k (lower Cases.plain_text) = false)
         (all_keywords JobDescriptionAnalyzer.__init__) /\
  exists resume st',
    tailor_resume (Some Cases.plain_text) None Example.tailor = (Ok resume, st') /\
    JobAnalysis.keyword_scores (TailoredResume.job_analysis resume) = [] /\
    TailoredResume.summary resume = "Product leader." +:+ " Specialized in ." /\
    TailoredResume.skills resume
    = take 15 ["Excel"; "SQL Server"; "SQL"; "Writing"; "Python"] /\
    TailoredResume.experiences resume
    = take 5 (filter (fun r => pm_at Example.heap r = true) [10; 12; 11]
              ++ filter (fun r => pm_at Example.heap r = false) [10; 12; 11]) /\
    TailoredResume.optimization_notes resume
    = [ "Optimized for 0 relevant PM keywords from job description";
        "Emphasized core skills based on job requirements";
        "Reordered experiences by relevance score";
        "Prioritized skills matching job description" ].
Proof.
  split; [exact example_allocated|]. split; [reflexivity|].
  split; [exact plain_text_has_no_keyword|].
  apply (tailoring_without_keywords Example.profile Example.heap Cases.plain_text None).
  - exact example_allocated.
  - reflexivity.
  - exact plain_text_has_no_keyword.
Defined.

(** X14.  Letter case of the job text does not matter to the resume: two
    texts with the same lowercase form leave the same state and either
    raise the same exception or return resumes with the same experiences,
    skills, summary and notes, whose analyses agree on the found keywords,
    the scores and the company information. *)
Theorem tailoring_ignores_letter_case
    (text text' : string) (focus_areas : option (list string)) (st : state) :
  allocated st ->
  lower text = lower text' ->
  let first := tailor_resume (Some text) focus_areas st in
  let second := tailor_resume (Some text') focus_areas st in
  second.2 = first.2 /\
  match first.1, second.1 with
  | Ok resume, Ok resume' =>
      TailoredResume.experiences resume' = TailoredResume.experiences resume /\
      TailoredResume.skills resume' = TailoredResume.skills resume /\
      TailoredResume.summary resume' = TailoredResume.summary resume /\
      TailoredResume.optimization_notes resume'
      = TailoredResume.optimization_notes resume /\
      JobAnalysis.keywords (TailoredResume.job_analysis resume')
      = JobAnalysis.keywords (TailoredResume.job_analysis resume) /\
      JobAnalysis.keyword_scores (TailoredResume.job_analysis resume')
      = JobAnalysis.keyword_scores (TailoredResume.job_analysis resume) /\
      JobAnalysis.company_info (TailoredResume.job_analysis resume')
      = JobAnalysis.company_info (TailoredResume.job_analysis resume)
  | Raise e, Raise e' => e' = e
  | _, _ => False
  end.
Proof.
  intros Hall Hlow. cbv zeta. rewrite !tailor_resume_run by done.
  unfold analyze, analyze_text, _extract_company_info. rewrite <- Hlow.
  destruct (dict_item (keyword_table (analyzer st)) "industries") as [industries|e];
    cbn [rbind fst snd]; [|done].
  cbn [JobAnalysis.keyword_scores].
  unfold _generate_optimization_notes. cbn [JobAnalysis.keywords].
  destruct (max_by Nat.ltb _ (find_keywords (analyzer st) (lower text))) as [top|e];
    cbn [rbind fst snd]; [|done].
  split; [done|]. repeat split.
Qed.

Lemma tailoring_ignores_letter_case_witness :
  let first := tailor_resume (Some Example.job_text) None Example.tailor in
  let second := tailor_resume (Some Cases.lowered_text) None Example.tailor in
  allocated Example.tailor /\
  lower Example.job_text = lower Cases.lowered_text /\
  second.2 = first.2 /\
  match first.1, second.1 with
  | Ok resume, Ok resume' =>
      TailoredResume.experiences resume' = TailoredResume.experiences resume /\
      TailoredResume.skills resume' = TailoredResume.skills resume /\
      TailoredResume.summary resume' = TailoredResume.summary resume /\
      TailoredResume.optimization_notes resume'
      = TailoredResume.optimization_notes resume /\
      JobAnalysis.keywords (TailoredResume.job_analysis resume')
      = JobAnalysis.keywords (TailoredResume.job_analysis resume) /\
      JobAnalysis.keyword_scores (TailoredResume.job_analysis resume')
      = JobAnalysis.keyword_scores (TailoredResume.job_analysis resume) /\
      JobAnalysis.company_info (TailoredResume.job_analysis resume')
      = JobAnalysis.company_info (TailoredResume.job_analysis resume)
  | Raise e, Raise e' => e' = e
  | _, _ => False
  end.
Proof.
  assert (Hlow : lower Example.job_text = lower Cases.lowered_text)
    by (unfold Cases.lowered_text; by rewrite lower_idemp).
  split; [exact example_allocated|]. split; [exact Hlow|].
  apply (tailoring_ignores_letter_case Example.job_text Cases.lowered_text None
           Example.tailor).
  - exact example_allocated.
  - exact Hlow.
Defined.

(* ===================================================================== *)
(** * The optimized summary *)
(* ===================================================================== *)

Lemma scores_not_nan (keyword_scores : dict float) :
  all_nonneg keyword_scores ->
  Forall ((fun k => is_nan k = false) ∘ snd) keyword_scores.
Proof.
  unfold all_nonneg, values. intros H. apply Forall_fmap in H.
  eapply Forall_impl; [exact H|]. intros p Hp. by apply FloatFacts.nonneg_not_nan.
Qed.

(** X15.  The keyword scores being non-negative, summary optimization only
    reads the state, and its text is the profile's summary, " Specialized
    in ", min(5, number of scored keywords) keywords none of which scores
    below a keyword left out, then either nothing or a clause " with proven
    expertise in ...", then a full stop: looking at eight keywords for the
    themes does not change which five are named. *)
Theorem optimized_summary_names_the_top_keywords
    (jd_analysis : JobAnalysis.t) (focus_areas : option (list string)) (st : state) :
  all_nonneg (JobAnalysis.keyword_scores jd_analysis) ->
  exists (named unnamed : dict float) (theme_clause : string),
    _optimize_summary jd_analysis focus_areas st
    = (Ok (UserProfile.summary (user_profile st) +:+ " Specialized in " +:+
           join ", " (keys named) +:+ theme_clause +:+ "."), st) /\
    named ++ unnamed ≡ₚ JobAnalysis.keyword_scores jd_analysis /\
    length named = min 5 (length (JobAnalysis.keyword_scores jd_analysis)) /\
    (forall x y, x ∈ named -> y ∈ unnamed -> PrimFloat.ltb x.2 y.2 = false) /\
    (theme_clause = "" \/ startswith " with proven expertise in " theme_clause = true).
Proof.
  intros Hnn. unfold _optimize_summary, bind, gets, ret, optimized_summary.
  set (kws := JobAnalysis.keyword_scores jd_analysis) in *.
  set (sorted := sorted_reverse PrimFloat.ltb snd kws).
  rewrite take_take. change (5 `min` 8) with 5.
  set (themes := _ ++ _ ++ _).
  exists (take 5 sorted), (drop 5 sorted),
         (match themes with
          | [] => ""
          | _ => " with proven expertise in " +:+ join ", " themes
          end).
  split; [|split; [|split; [|split]]].
  - f_equal. f_equal. unfold keys. destruct themes.
    + by rewrite !append_assoc.
    + by rewrite !append_assoc.
  - rewrite take_drop. apply sorted_reverse_perm.
  - rewrite length_take. unfold sorted. by rewrite sorted_reverse_length.
  - intros x y Hx Hy.
    apply (sorted_cut_keeps_the_best PrimFloat.ltb snd sorted 5); [|done..].
    apply (sorted_reverse_descending PrimFloat.ltb snd (fun k => is_nan k = false)
             FloatFacts.ltb_asym FloatFacts.ltb_false_trans).
    by apply scores_not_nan.
  - destruct themes; [by left|by right].
Qed.

Lemma optimized_summary_names_the_top_keywords_witness :
  all_nonneg (JobAnalysis.keyword_scores Example.analysis) /\
  exists (named unnamed : dict float) (theme_clause : string),
    _optimize_summary Example.analysis None Example.tailor
    = (Ok ("Product leader." +:+ " Specialized in " +:+
           join ", " (keys named) +:+ theme_clause +:+ "."), Example.tailor) /\
    named ++ unnamed ≡ₚ JobAnalysis.keyword_scores Example.analysis /\
    length named = min 5 (length (JobAnalysis.keyword_scores Example.analysis)) /\
    (forall x y, x ∈ named -> y ∈ unnamed -> PrimFloat.ltb x.2 y.2 = false) /\
    (theme_clause = "" \/ startswith " with proven expertise in " theme_clause = true).
Proof.
  split; [exact example_scores_nonneg|].
  apply (optimized_summary_names_the_top_keywords Example.analysis None Example.tailor).
  exact example_scores_nonneg.
Defined.
